(** * seller.py: reconciliation and batching of stock and price updates

    A shallow embedding of the data-transforming part of [seller.py]
    ([price_conversion], [divide], [create_stocks], [create_prices], the
    paging loop of [get_offer_ids] and the compositions made by [main],
    [upload_prices] and [upload_stocks]),
    followed by the properties of the specification that concern them.

    Conventions of the embedding.
    - A Python [str] is a [string]: the UTF-8 bytes of the text.  The source
      only compares strings for equality, splits on ['.'] and keeps ASCII
      digits; these agree on code points and on UTF-8 bytes, since every
      byte of a multi-byte sequence is at least 128.
    - A Python [int] is a [Z].
    - An exception is a value [Raise e]; a mutable list that a function
      receives is threaded explicitly as state, and is returned even when the
      call raises (a mutation made before the exception persists). *)

From Stdlib Require Import ZArith List String Ascii Bool Lia Permutation.
From Stdlib Require Import DecimalString.
From Stdlib Require DecimalPos DecimalZ.
Import ListNotations.

Local Open Scope string_scope.
Local Open Scope list_scope.
Local Open Scope Z_scope.

(** ** Python values and exceptions *)

Inductive PyExc : Type :=
| ValueError
| TypeError
| AttributeError
| IndexError.

Inductive result (A : Type) : Type :=
| Ok (a : A)
| Raise (e : PyExc).

Arguments Ok {A} a.
Arguments Raise {A} e.

(** The values a spreadsheet cell or an absent dictionary key can give:
    [watch.get(key)] is [None] when the key is missing.  Floating point cells
    are not modelled. *)
Inductive PyVal : Type :=
| PyNone
| PyInt (z : Z)
| PyStr (s : string).

(** [str(v)] *)
Definition py_str (v : PyVal) : string :=
  match v with
  | PyNone => "None"
  | PyInt z => NilZero.string_of_int (Z.to_int z)
  | PyStr s => s
  end.

(** ** Characters *)

Definition is_digit (c : ascii) : bool :=
  let n := nat_of_ascii c in
  (48 <=? n)%nat && (n <=? 57)%nat.

Definition digit_value (c : ascii) : Z :=
  Z.of_nat (nat_of_ascii c) - 48.

(** The white space that [int] drops around a literal in an ASCII string:
    tab, line feed, vertical tab, form feed, carriage return and space. *)
Definition is_space (c : ascii) : bool :=
  let n := nat_of_ascii c in
  ((9 <=? n)%nat && (n <=? 13)%nat) || (n =? 32)%nat.

Fixpoint string_filter (p : ascii -> bool) (s : string) : string :=
  match s with
  | EmptyString => EmptyString
  | String c s' =>
      if p c then String c (string_filter p s') else string_filter p s'
  end.

Fixpoint string_forallb (p : ascii -> bool) (s : string) : bool :=
  match s with
  | EmptyString => true
  | String c s' => p c && string_forallb p s'
  end.

(** ** [int(...)]

    [int(s)] on a string, base 10: surrounding white space is dropped, one
    sign is allowed, then decimal digits, where a single underscore may
    stand between two digits.  This is what [int] does on a string of
    ASCII characters.  On a string with other characters [int] consults
    the Unicode tables (it also takes the decimal digits and the white
    space of other scripts), which are not modelled: such a string is
    rejected here, and a property that rests on a rejection assumes the
    string ASCII.  The interpreter's limit on the number of digits is not
    modelled either. *)

Fixpoint lstrip (s : string) : string :=
  match s with
  | EmptyString => EmptyString
  | String c s' => if is_space c then lstrip s' else s
  end.

Fixpoint rstrip (s : string) : string :=
  match s with
  | EmptyString => EmptyString
  | String c s' =>
      match rstrip s' with
      | EmptyString => if is_space c then EmptyString else String c EmptyString
      | r => String c r
      end
  end.

Definition strip (s : string) : string := rstrip (lstrip s).

(** Digits after the first one; [us] records that the previous character
    was an underscore. *)
Fixpoint parse_digits (acc : Z) (us : bool) (s : string) : option Z :=
  match s with
  | EmptyString => if us then None else Some acc
  | String c s' =>
      if is_digit c then parse_digits (10 * acc + digit_value c) false s'
      else if Ascii.eqb c "_"%char then
             if us then None else parse_digits acc true s'
           else None
  end.

Definition parse_unsigned (s : string) : option Z :=
  match s with
  | EmptyString => None
  | String c s' =>
      if is_digit c then parse_digits (digit_value c) false s' else None
  end.

Definition parse_int (s : string) : option Z :=
  match strip s with
  | EmptyString => None
  | String c s' =>
      if Ascii.eqb c "-"%char then option_map Z.opp (parse_unsigned s')
      else if Ascii.eqb c "+"%char then parse_unsigned s'
      else parse_unsigned (String c s')
  end.

(** [int(v)] *)
Definition py_int (v : PyVal) : result Z :=
  match v with
  | PyNone => Raise TypeError
  | PyInt z => Ok z
  | PyStr s =>
      match parse_int s with
      | Some z => Ok z
      | None => Raise ValueError
      end
  end.

(** ** [price_conversion] *)

(** [s.split(sep)] for a one-character separator. *)
Fixpoint py_split (sep : ascii) (s : string) : list string :=
  match s with
  | EmptyString => [EmptyString]
  | String c s' =>
      if Ascii.eqb c sep then EmptyString :: py_split sep s'
      else match py_split sep s' with
           | [] => [String c EmptyString]
           | p :: ps => String c p :: ps
           end
  end.

(** [l[0]] *)
Definition py_first {A : Type} (l : list A) : result A :=
  match l with
  | [] => Raise IndexError
  | x :: _ => Ok x
  end.

(** [re.sub("[^0-9]", "", s)]: every character outside ['0'..'9'] is
    replaced by the empty string. *)
Definition re_sub_non_digits (s : string) : string :=
  string_filter is_digit s.

(** [price_conversion(price)]; [price.split] does not exist on [None] or on
    an [int]. *)
Definition price_conversion (price : PyVal) : result string :=
  match price with
  | PyStr s =>
      match py_first (py_split "."%char s) with
      | Ok p => Ok (re_sub_non_digits p)
      | Raise e => Raise e
      end
  | _ => Raise AttributeError
  end.

(** ** [divide] *)

(** [range(start, stop, step)] as the list of its elements: a zero step
    raises, otherwise the number of elements is computed first and the
    elements are [start + i * step]. *)
Definition py_range (start stop step : Z) : result (list Z) :=
  if step =? 0 then Raise ValueError
  else
    let len :=
      if 0 <? step then
        if start <? stop then (stop - start - 1) / step + 1 else 0
      else
        if stop <? start then (start - stop - 1) / (- step) + 1 else 0 in
    Ok (map (fun i => start + Z.of_nat i * step) (seq 0 (Z.to_nat len))).

(** A slice bound, as [lst[lo:hi]] reads it: a negative bound counts from
    the end, and the bound is then clamped to [0 .. len]. *)
Definition clamp_index (len i : Z) : Z :=
  let i' := if i <? 0 then i + len else i in
  Z.max 0 (Z.min len i').

(** [lst[lo:hi]] *)
Definition py_slice {A : Type} (lst : list A) (lo hi : Z) : list A :=
  let len := Z.of_nat (List.length lst) in
  let a := clamp_index len lo in
  let b := clamp_index len hi in
  firstn (Z.to_nat (b - a)) (skipn (Z.to_nat a) lst).

(** [list(divide(lst, n))]: the generator is a loop over
    [range(0, len(lst), n)] that yields [lst[i: i + n]]; every caller
    consumes it at once with [list(...)], which is where a zero step
    raises. *)
Definition divide {A : Type} (lst : list A) (n : Z) : result (list (list A)) :=
  match py_range 0 (Z.of_nat (List.length lst)) n with
  | Raise e => Raise e
  | Ok starts => Ok (map (fun i => py_slice lst i (i + n)) starts)
  end.

(** ** The shared list [offer_ids]

    [create_stocks] removes elements from the list object it is given, and
    [main] passes the same object on to [create_prices].  A computation that
    holds a reference to the list is a function of its contents that returns
    a result and the contents afterwards. *)

Definition M (A : Type) : Type := list string -> result A * list string.

Definition ret {A : Type} (a : A) : M A := fun ks => (Ok a, ks).

Definition bind {A B : Type} (m : M A) (f : A -> M B) : M B :=
  fun ks =>
    match m ks with
    | (Ok a, ks') => f a ks'
    | (Raise e, ks') => (Raise e, ks')
    end.

Definition lift {A : Type} (r : result A) : M A := fun ks => (r, ks).

Declare Scope py_scope.
Delimit Scope py_scope with py.
Notation "x <- m ;; k" := (bind m (fun x => k))
  (at level 100, m at next level, right associativity) : py_scope.
Local Open Scope py_scope.

(** [x in offer_ids] *)
Definition py_in (x : string) (ks : list string) : bool :=
  existsb (String.eqb x) ks.

Definition contains (x : string) : M bool := fun ks => (Ok (py_in x ks), ks).

(** [offer_ids.remove(x)]: the first element equal to [x] is removed; the
    call raises when there is none. *)
Fixpoint remove_first (x : string) (ks : list string) : option (list string) :=
  match ks with
  | [] => None
  | k :: ks' =>
      if String.eqb k x then Some ks'
      else option_map (cons k) (remove_first x ks')
  end.

Definition list_remove (x : string) : M unit :=
  fun ks =>
    match remove_first x ks with
    | Some ks' => (Ok tt, ks')
    | None => (Raise ValueError, ks)
    end.

(** The elements a [for] loop over [offer_ids] visits when its body leaves
    the list alone. *)
Definition elements : M (list string) := fun ks => (Ok ks, ks).

(** [for x in l: body], with the variables the body assigns as [acc]. *)
Fixpoint for_each {A S : Type} (l : list A) (body : A -> S -> M S) (acc : S)
  : M S :=
  match l with
  | [] => ret acc
  | x :: l' => acc' <- body x acc ;; for_each l' body acc'
  end.

(** ** Records *)

(** A row of the spreadsheet, by what [watch.get] returns for the three keys
    that the source reads: the code, the quantity and the price column. *)
Record Watch : Type := {
  code : PyVal;
  quantity : PyVal;
  price : PyVal
}.

Module Stock.
(** [{"offer_id": ..., "stock": ...}] *)
Record entry : Type := {
  offer_id : string;
  stock : Z
}.
End Stock.

Module Price.
(** The dictionary built by [create_prices]. *)
Record entry : Type := {
  auto_action_enabled : string;
  currency_code : string;
  offer_id : string;
  old_price : string;
  price : string
}.
End Price.

(** ** [create_stocks] *)

(** The [if]/[elif]/[else] on [count]. *)
Definition stock_of_quantity (q : PyVal) : result Z :=
  let count := py_str q in
  if String.eqb count ">10" then Ok 100
  else if String.eqb count "1" then Ok 0
  else py_int q.

Definition create_stocks_body (watch : Watch) (stocks : list Stock.entry)
  : M (list Stock.entry) :=
  found <- contains (py_str (code watch)) ;;
  if found then
    stock <- lift (stock_of_quantity (quantity watch)) ;;
    let stocks' :=
      stocks ++ [ {| Stock.offer_id := py_str (code watch);
                     Stock.stock := stock |} ] in
    _ <- list_remove (py_str (code watch)) ;;
    ret stocks'
  else ret stocks.

Definition create_stocks_rest (offer_id : string) (stocks : list Stock.entry)
  : M (list Stock.entry) :=
  ret (stocks ++ [ {| Stock.offer_id := offer_id; Stock.stock := 0 |} ]).

Definition create_stocks (watch_remnants : list Watch) : M (list Stock.entry) :=
  stocks <- for_each watch_remnants create_stocks_body [] ;;
  offer_ids <- elements ;;
  for_each offer_ids create_stocks_rest stocks.

(** ** [create_prices] *)

Definition create_prices_body (watch : Watch) (prices : list Price.entry)
  : M (list Price.entry) :=
  found <- contains (py_str (code watch)) ;;
  if found then
    p <- lift (price_conversion (price watch)) ;;
    ret (prices ++ [ {| Price.auto_action_enabled := "UNKNOWN";
                        Price.currency_code := "RUB";
                        Price.offer_id := py_str (code watch);
                        Price.old_price := "0";
                        Price.price := p |} ])
  else ret prices.

Definition create_prices (watch_remnants : list Watch) : M (list Price.entry) :=
  for_each watch_remnants create_prices_body [].

(** ** [main]

    The write calls that [main] makes, in order, for the identifiers that
    [get_offer_ids] returned and the rows that [download_stock] returned,
    when every write succeeds.  Any exception ends the run (the [except]
    clauses only print), so the calls made before it are all there is. *)

Inductive Call : Type :=
| UpdateStocks (some_stock : list Stock.entry)
| UpdatePrice (some_price : list Price.entry).

Definition main (offer_ids : list string) (watch_remnants : list Watch)
  : list Call :=
  match create_stocks watch_remnants offer_ids with
  | (Raise _, _) => []
  | (Ok stocks, offer_ids') =>
      match divide stocks 100 with
      | Raise _ => []
      | Ok stock_chunks =>
          map UpdateStocks stock_chunks ++
          match create_prices watch_remnants offer_ids' with
          | (Raise _, _) => []
          | (Ok prices, _) =>
              match divide prices 900 with
              | Raise _ => []
              | Ok price_chunks => map UpdatePrice price_chunks
              end
          end
      end
  end.

Definition is_update_price (c : Call) : bool :=
  match c with
  | UpdatePrice _ => true
  | UpdateStocks _ => false
  end.

(** [main] when a write may fail.  The two predicates tell which calls of
    [update_stocks] and [update_price] return; a call that does not return
    raises (from [raise_for_status] or from the connection), the exception
    leaves the loop and is caught and printed by [main], so the failed call
    is the last one of the run. *)
Section Writes.

Variable update_stocks_returns : list Stock.entry -> bool.
Variable update_price_returns : list Price.entry -> bool.

(** [for some_stock in chunks: update_stocks(some_stock, ...)]: the calls
    made, and whether the loop came to its end. *)
Fixpoint send_stocks (chunks : list (list Stock.entry)) : list Call * bool :=
  match chunks with
  | [] => ([], true)
  | some_stock :: rest =>
      if update_stocks_returns some_stock then
        let (calls, done) := send_stocks rest in
        (UpdateStocks some_stock :: calls, done)
      else ([UpdateStocks some_stock], false)
  end.

Fixpoint send_prices (chunks : list (list Price.entry)) : list Call * bool :=
  match chunks with
  | [] => ([], true)
  | some_price :: rest =>
      if update_price_returns some_price then
        let (calls, done) := send_prices rest in
        (UpdatePrice some_price :: calls, done)
      else ([UpdatePrice some_price], false)
  end.

Definition main_run (offer_ids : list string) (watch_remnants : list Watch)
  : list Call :=
  match create_stocks watch_remnants offer_ids with
  | (Raise _, _) => []
  | (Ok stocks, offer_ids') =>
      match divide stocks 100 with
      | Raise _ => []
      | Ok stock_chunks =>
          let (stock_calls, done) := send_stocks stock_chunks in
          if done then
            stock_calls ++
            match create_prices watch_remnants offer_ids' with
            | (Raise _, _) => []
            | (Ok prices, _) =>
                match divide prices 900 with
                | Raise _ => []
                | Ok price_chunks => fst (send_prices price_chunks)
                end
            end
          else stock_calls
      end
  end.

End Writes.

(** ** [get_offer_ids] *)

Record Product : Type := {
  product_offer_id : string
}.

(** The ["result"] object of a catalogue page. *)
Record Page : Type := {
  items : list Product;
  total : Z;
  last_id : string
}.

Section Catalogue.

(** The marketplace: what the [k]-th request answers when it is sent the
    cursor [last_id].  A failed request raises. *)
Variable get_product_list : nat -> string -> result Page.

(** The [while True] loop, entered for the [k]-th request with [cur] the
    value of the variable [last_id].  [None] means that the loop is still
    running after [fuel] requests. *)
Fixpoint get_offer_ids_loop (fuel k : nat) (cur : string)
         (product_list : list Product) : option (result (list Product)) :=
  match fuel with
  | O => None
  | S fuel' =>
      match get_product_list k cur with
      | Raise e => Some (Raise e)
      | Ok some_prod =>
          let product_list' := product_list ++ items some_prod in
          if total some_prod =? Z.of_nat (List.length product_list')
          then Some (Ok product_list')
          else get_offer_ids_loop fuel' (S k) (last_id some_prod)
                                  product_list'
      end
  end.

Definition get_offer_ids (fuel : nat) : option (result (list string)) :=
  match get_offer_ids_loop fuel 0 "" [] with
  | None => None
  | Some (Raise e) => Some (Raise e)
  | Some (Ok product_list) => Some (Ok (map product_offer_id product_list))
  end.

(** The pages the loop asks for, each request carrying the cursor of the
    page before it, and the number of items fetched so far. *)
Section Pages.
Variable pages : nat -> Page.

Definition cursor (k : nat) : string :=
  match k with
  | O => ""
  | S j => last_id (pages j)
  end.

(** The items of the pages before page [k], and up to page [k]. *)
Definition seen (k : nat) : list Product :=
  flat_map (fun j => items (pages j)) (seq 0 k).

Definition fetched (k : nat) : list Product :=
  flat_map (fun j => items (pages j)) (seq 0 (S k)).

Definition answered (k : nat) : Prop :=
  get_product_list k (cursor k) = Ok (pages k).

Definition complete (k : nat) : Prop :=
  total (pages k) = Z.of_nat (List.length (fetched k)).
End Pages.

End Catalogue.

(** ** [upload_prices] and [upload_stocks]

    The two coroutines have no suspension point of their own: awaited, each
    runs from its first line to its [return].  Like [main] they are given
    here by the write calls they make, when every write succeeds, for the
    identifiers that their own call of [get_offer_ids] returned; unlike
    [main] they let an exception through. *)

Definition upload_prices (offer_ids : list string) (watch_remnants : list Watch)
  : list Call * result (list Price.entry) :=
  match create_prices watch_remnants offer_ids with
  | (Raise e, _) => ([], Raise e)
  | (Ok prices, _) =>
      match divide prices 1000 with
      | Raise e => ([], Raise e)
      | Ok price_chunks => (map UpdatePrice price_chunks, Ok prices)
      end
  end.

(** [stock.get("stock") != 0] *)
Definition stock_not_zero (stock : Stock.entry) : bool :=
  negb (Stock.stock stock =? 0).

Definition upload_stocks (offer_ids : list string) (watch_remnants : list Watch)
  : list Call * result (list Stock.entry * list Stock.entry) :=
  match create_stocks watch_remnants offer_ids with
  | (Raise e, _) => ([], Raise e)
  | (Ok stocks, _) =>
      match divide stocks 100 with
      | Raise e => ([], Raise e)
      | Ok stock_chunks =>
          let not_empty := filter stock_not_zero stocks in
          (map UpdateStocks stock_chunks, Ok (not_empty, stocks))
      end
  end.

(** * Vocabulary of the specification *)

(** The ten ASCII decimal digits. *)
Definition ascii_decimal_digits : list ascii :=
  list_ascii_of_string "0123456789".

(** The offer identifiers of the inventory, row by row. *)
Definition inventory_ids (watch_remnants : list Watch) : list string :=
  map (fun watch => py_str (code watch)) watch_remnants.

(** A list without the later repetitions of its elements. *)
Fixpoint dedup (l : list string) : list string :=
  match l with
  | [] => []
  | x :: l' => x :: filter (fun y => negb (String.eqb y x)) (dedup l')
  end.

(** The entry synthesized for an identifier that no row matched. *)
Definition zero_stock (offer_id : string) : Stock.entry :=
  {| Stock.offer_id := offer_id; Stock.stock := 0 |}.

(** A quantity as the data feed is expected to give it: one of the two
    sentinels or a non-empty string of decimal digits. *)
Definition feed_quantity (q : PyVal) : Prop :=
  exists s, q = PyStr s /\
    (s = ">10" \/ s = "1" \/
     (s <> "" /\ string_forallb is_digit s = true)).


(** The scenario of the specification: three known offers, two rows. *)
Definition scenario_offers : list string := ["A"; "B"; "C"].

Definition scenario_inventory : list Watch :=
  [ {| code := PyStr "A"; quantity := PyStr ">10"; price := PyStr "5'990.00" |};
    {| code := PyStr "B"; quantity := PyStr "1"; price := PyStr "100.00" |} ].

(** A catalogue of three products served in two pages. *)
Definition first_page : Page :=
  {| items := [ {| product_offer_id := "A" |}; {| product_offer_id := "B" |} ];
     total := 3;
     last_id := "B" |}.

Definition second_page : Page :=
  {| items := [ {| product_offer_id := "C" |} ]; total := 3; last_id := "C" |}.

Definition two_page_catalogue (k : nat) (cur : string) : result Page :=
  if String.eqb cur "" then Ok first_page else Ok second_page.

Definition two_pages (k : nat) : Page :=
  match k with
  | O => first_page
  | S _ => second_page
  end.

(** The rows whose identifier is one of [K]. *)
Definition known_row (K : list string) (watch : Watch) : bool :=
  py_in (py_str (code watch)) K.

(** The batches of the stock calls and of the price calls of a run. *)
Definition stock_batches (calls : list Call) : list (list Stock.entry) :=
  flat_map (fun c => match c with
                     | UpdateStocks b => [b]
                     | UpdatePrice _ => []
                     end) calls.

Definition price_batches (calls : list Call) : list (list Price.entry) :=
  flat_map (fun c => match c with
                     | UpdatePrice b => [b]
                     | UpdateStocks _ => []
                     end) calls.

(** The number that the digits [d] continue, when the digits read so far
    make [acc]. *)
Fixpoint uint_value (acc : Z) (d : Decimal.uint) : Z :=
  match d with
  | Decimal.Nil => acc
  | Decimal.D0 d' => uint_value (10 * acc + 0) d'
  | Decimal.D1 d' => uint_value (10 * acc + 1) d'
  | Decimal.D2 d' => uint_value (10 * acc + 2) d'
  | Decimal.D3 d' => uint_value (10 * acc + 3) d'
  | Decimal.D4 d' => uint_value (10 * acc + 4) d'
  | Decimal.D5 d' => uint_value (10 * acc + 5) d'
  | Decimal.D6 d' => uint_value (10 * acc + 6) d'
  | Decimal.D7 d' => uint_value (10 * acc + 7) d'
  | Decimal.D8 d' => uint_value (10 * acc + 8) d'
  | Decimal.D9 d' => uint_value (10 * acc + 9) d'
  end.

(** *** Integer literals

    What [int] takes for an integer in a string of ASCII characters: white
    space, then at most one sign, then runs of decimal digits with one
    underscore between two runs, then white space; and the number that it
    writes. *)

Definition literal_white_space : list ascii :=
  [ "009"; "010"; "011"; "012"; "013"; " " ]%char.

Definition made_of (cs : list ascii) (s : string) : bool :=
  string_forallb (fun c => existsb (Ascii.eqb c) cs) s.

(** The place of a character in a list, from 0; the value of a decimal
    digit is its place in ["0123456789"]. *)
Fixpoint position (c : ascii) (cs : list ascii) : Z :=
  match cs with
  | [] => 0
  | x :: cs' => if Ascii.eqb c x then 0 else 1 + position c cs'
  end.

(** The number written by the digits that made [acc] followed by the
    digits [s]. *)
Fixpoint decimal_from (acc : Z) (s : string) : Z :=
  match s with
  | EmptyString => acc
  | String c s' =>
      decimal_from (10 * acc + position c ascii_decimal_digits) s'
  end.

Fixpoint glue (l : list string) : string :=
  match l with
  | [] => EmptyString
  | x :: l' => (x ++ glue l')%string
  end.

Definition digit_run (s : string) : Prop :=
  s <> "" /\ made_of ascii_decimal_digits s = true.

Definition int_literal (q : string) (z : Z) : Prop :=
  exists (l sign g : string) (gs : list string) (r : string),
    q = (l ++ sign ++ g ++ glue (map (String "_") gs) ++ r)%string /\
    made_of literal_white_space l = true /\
    made_of literal_white_space r = true /\
    digit_run g /\
    Forall digit_run gs /\
    ((sign = "" \/ sign = "+") /\ z = decimal_from 0 (g ++ glue gs)
     \/ sign = "-" /\ z = - decimal_from 0 (g ++ glue gs)).


(** The empty page, for a request that was not answered. *)
Definition no_page : Page := {| items := []; total := 0; last_id := "" |}.

(** The page that answers request [k] of [get_offer_ids], each request
    carrying the cursor of the page before it. *)
Fixpoint page_at (get_product_list : nat -> string -> result Page) (k : nat)
  : Page :=
  let cur := match k with
             | O => ""
             | S j => last_id (page_at get_product_list j)
             end in
  match get_product_list k cur with
  | Ok p => p
  | Raise _ => no_page
  end.

(** Unfolds the operations on the shared list. *)
Ltac run_py :=
  unfold bind, contains, lift, list_remove, elements, ret,
         create_stocks_rest in *.

(** Evaluates the tests on literal characters. *)
Ltac eval_digit :=
  repeat match goal with
         | |- context [is_digit ?c] =>
             let b := eval vm_compute in (is_digit c) in
             change (is_digit c) with b
         | |- context [digit_value ?c] =>
             let z := eval vm_compute in (digit_value c) in
             change (digit_value c) with z
         end.

(** * Properties *)

(** ** Results of the loops over the shared list *)

Lemma py_in_In (x : string) (ks : list string) :
  py_in x ks = true <-> In x ks.
Proof.
  unfold py_in. rewrite existsb_exists. split.
  - intros (y & Hy & E). apply String.eqb_eq in E. now subst.
  - intros H. exists x. split; [assumption | apply String.eqb_refl].
Qed.

Lemma py_in_not_In (x : string) (ks : list string) :
  py_in x ks = false <-> ~ In x ks.
Proof.
  rewrite <- py_in_In. destruct (py_in x ks); split; congruence.
Qed.

Lemma for_each_app {A S : Type} (l1 l2 : list A) (body : A -> S -> M S)
      (acc : S) (ks : list string) :
  for_each (l1 ++ l2) body acc ks =
  match for_each l1 body acc ks with
  | (Ok acc', ks') => for_each l2 body acc' ks'
  | (Raise e, ks') => (Raise e, ks')
  end.
Proof.
  revert acc ks. induction l1 as [|x l1 IH]; intros acc ks; simpl.
  - reflexivity.
  - unfold bind. destruct (body x acc ks) as [[acc'|e] ks']; [apply IH | reflexivity].
Qed.

(** ** [price_conversion] *)

(** The part of [s] before its first [sep]. *)
Lemma py_split_first (sep : ascii) (s : string) :
  exists pre ps,
    py_split sep s = pre :: ps /\
    string_forallb (fun c => negb (Ascii.eqb c sep)) pre = true /\
    (s = pre /\ ps = [] \/ exists rest, s = (pre ++ String sep rest)%string).
Proof.
  induction s as [|c s (pre & ps & E & Hpre & Hs)]; simpl.
  - exists EmptyString, []. repeat split. now left.
  - destruct (Ascii.eqb c sep) eqn:Ec.
    + apply Ascii.eqb_eq in Ec. subst c.
      exists EmptyString, (py_split sep s). repeat split.
      right. now exists s.
    + rewrite E. exists (String c pre), ps. simpl. rewrite Ec, Hpre.
      repeat split. destruct Hs as [[-> ->] | (rest & ->)].
      * now left.
      * right. now exists rest.
Qed.

Lemma string_filter_list (p : ascii -> bool) (s : string) :
  list_ascii_of_string (string_filter p s) = filter p (list_ascii_of_string s).
Proof.
  induction s as [|c s IH]; simpl; [reflexivity|].
  destruct (p c); simpl; now rewrite IH.
Qed.

Lemma is_digit_decimal (c : ascii) :
  is_digit c = existsb (Ascii.eqb c) ascii_decimal_digits.
Proof.
  destruct c as [[] [] [] [] [] [] [] []]; reflexivity.
Qed.

(** C4.  For every input string, [price_conversion] returns the characters
    of the part of the input before the first ['.'] (the whole input when it
    has none) that are ASCII decimal digits, in their order and with
    everything else removed; and [price_conversion("5'990.00 руб.")] is
    ["5990"]. *)
Theorem price_conversion_digits_before_dot :
  (forall s : string,
      exists pre out : string,
        (s = pre \/ exists rest, s = (pre ++ String "." rest)%string) /\
        string_forallb (fun c => negb (Ascii.eqb c ".")) pre = true /\
        price_conversion (PyStr s) = Ok out /\
        list_ascii_of_string out =
        filter (fun c => existsb (Ascii.eqb c) ascii_decimal_digits)
               (list_ascii_of_string pre)) /\
  price_conversion (PyStr "5'990.00 руб.") = Ok "5990".
Proof.
  split; [|reflexivity].
  intros s. destruct (py_split_first "." s) as (pre & ps & E & Hpre & Hs).
  exists pre, (re_sub_non_digits pre). repeat split.
  - destruct Hs as [[-> _] | H]; [now left | now right].
  - exact Hpre.
  - unfold price_conversion. now rewrite E.
  - unfold re_sub_non_digits. rewrite string_filter_list.
    apply filter_ext. intros c. apply is_digit_decimal.
Qed.

(** ** [divide] *)

Section Divide.
Context {A : Type}.
Implicit Types (lst : list A) (n : Z).

Lemma firstn_skipn_add (a b : nat) lst :
  firstn a lst ++ firstn b (skipn a lst) = firstn (a + b) lst.
Proof.
  revert lst. induction a as [|a IH]; intros [|x lst]; simpl;
    try reflexivity.
  - now rewrite firstn_nil.
  - now rewrite IH.
Qed.

(** A slice that starts at a valid position and has a fixed width. *)
Lemma py_slice_width lst (a m : Z) :
  0 <= a -> 0 <= m ->
  py_slice lst a (a + m) = firstn (Z.to_nat m) (skipn (Z.to_nat a) lst).
Proof.
  intros Ha Hm. unfold py_slice, clamp_index.
  destruct (Z.ltb_spec a 0); [lia|].
  destruct (Z.ltb_spec (a + m) 0); [lia|].
  set (len := Z.of_nat (List.length lst)).
  destruct (Z.le_gt_cases a len) as [Hle | Hgt].
  - replace (Z.max 0 (Z.min len a)) with a by lia.
    assert (Hlen : List.length (skipn (Z.to_nat a) lst)
                   = Z.to_nat (len - a)).
    { rewrite length_skipn. unfold len. lia. }
    destruct (Z.le_gt_cases (a + m) len).
    + f_equal. lia.
    + replace (Z.max 0 (Z.min len (a + m)) - a) with (len - a) by lia.
      rewrite <- Hlen. rewrite firstn_all.
      symmetry. apply firstn_all2. lia.
  - rewrite !(skipn_all2 lst) by (unfold len in Hgt; lia).
    now rewrite !firstn_nil.
Qed.

(** The first [k] chunks of width [n] make up the first [k * n]
    elements. *)
Lemma concat_chunks lst (n : Z) (k : nat) :
  0 < n ->
  List.concat (map (fun i => py_slice lst i (i + n))
              (map (fun i => 0 + Z.of_nat i * n) (seq 0 k)))
  = firstn (k * Z.to_nat n) lst.
Proof.
  intros Hn. induction k as [|k IH].
  - reflexivity.
  - rewrite seq_S, !map_app, concat_app, IH. simpl.
    rewrite app_nil_r, py_slice_width by lia.
    replace (Z.to_nat (Z.of_nat k * n)) with (k * Z.to_nat n)%nat by lia.
    rewrite firstn_skipn_add. f_equal. lia.
Qed.

Lemma chunk_length lst (n : Z) (i : nat) :
  0 < n ->
  Z.of_nat (List.length (py_slice lst (Z.of_nat i * n)
                                  (Z.of_nat i * n + n)))
  = Z.max 0 (Z.min n (Z.of_nat (List.length lst) - Z.of_nat i * n)).
Proof.
  intros Hn. rewrite py_slice_width by lia.
  rewrite length_firstn, length_skipn. lia.
Qed.

(** The number of chunks that [range(0, len, n)] starts. *)
Lemma py_range_chunks (len n : Z) :
  0 < n -> 0 <= len ->
  exists k : nat,
    py_range 0 len n = Ok (map (fun i => 0 + Z.of_nat i * n) (seq 0 k)) /\
    len <= Z.of_nat k * n /\
    (0 < len -> (Z.of_nat k - 1) * n < len) /\
    (len = 0 -> k = O).
Proof.
  intros Hn Hlen. unfold py_range.
  destruct (Z.eqb_spec n 0); [lia|].
  destruct (Z.ltb_spec 0 n); [|lia].
  destruct (Z.ltb_spec 0 len) as [Hpos | Hz].
  - exists (Z.to_nat ((len - 0 - 1) / n + 1)). split; [reflexivity|].
    replace (len - 0 - 1) with (len - 1) by lia.
    pose proof (Z.div_pos (len - 1) n ltac:(lia) Hn).
    pose proof (Z.mul_div_le (len - 1) n Hn).
    pose proof (Z.mul_succ_div_gt (len - 1) n Hn).
    rewrite Z2Nat.id by lia. repeat split; nia.
  - exists O. repeat split; try reflexivity; lia.
Qed.

End Divide.

(** C5.  For a positive [n], [divide(lst, n)] yields chunks whose
    concatenation, in order, is [lst]; every chunk but the last has exactly
    [n] elements and the last has between [1] and [n]; an empty list yields
    no chunk. *)
Theorem divide_partitions (A : Type) (lst : list A) (n : Z) :
  0 < n ->
  exists chunks : list (list A),
    divide lst n = Ok chunks /\
    List.concat chunks = lst /\
    (forall i c, nth_error chunks i = Some c ->
       ((S i < List.length chunks)%nat -> Z.of_nat (List.length c) = n) /\
       (S i = List.length chunks -> 1 <= Z.of_nat (List.length c) <= n)) /\
    (lst = [] -> chunks = []).
Proof.
  intros Hn.
  destruct (py_range_chunks (Z.of_nat (List.length lst)) n Hn)
    as (k & Hr & Hcover & Hlast & Hnil); [lia|].
  unfold divide. rewrite Hr. eexists. split; [reflexivity|].
  split; [|split].
  - rewrite concat_chunks by assumption. apply firstn_all2. lia.
  - intros i c Hc. rewrite !length_map, length_seq.
    rewrite !nth_error_map, nth_error_seq in Hc.
    destruct (Nat.ltb_spec i k) as [Hi|]; [|discriminate].
    injection Hc as <-. rewrite chunk_length by assumption.
    split; intros Hk.
    + nia.
    + assert (0 < Z.of_nat (List.length lst)) by nia.
      specialize (Hlast ltac:(assumption)). nia.
  - intros ->. now rewrite Hnil.
Qed.

Lemma divide_partitions_witness :
  exists chunks : list (list Z),
    divide [1; 2; 3; 4; 5] 2 = Ok chunks /\
    List.concat chunks = [1; 2; 3; 4; 5] /\
    (forall i c, nth_error chunks i = Some c ->
       ((S i < List.length chunks)%nat -> Z.of_nat (List.length c) = 2) /\
       (S i = List.length chunks -> 1 <= Z.of_nat (List.length c) <= 2)) /\
    ([1; 2; 3; 4; 5] = [] -> chunks = []).
Proof.
  exact (divide_partitions Z [1; 2; 3; 4; 5] 2 ltac:(lia)).
Defined.

(** C6, as the claim states it, fails: on the one-element list [[1]] the
    size [-1] yields no chunk and raises nothing. *)
Lemma divide_negative_size_counterexample :
  [1] <> @nil Z /\ -1 <= 0 /\
  divide [1] (-1) = Ok [] /\
  ~ (exists e, divide [1] (-1) = Raise e).
Proof.
  repeat split; try discriminate.
  intros (e & He). discriminate He.
Qed.

(** C6, amended.  [divide(lst, 0)] raises ([range] refuses a zero step) as
    soon as it is iterated, for every list; with a negative size the range
    is empty and [divide] yields no chunk without raising. *)
Theorem divide_nonpositive_size (A : Type) (lst : list A) (n : Z) :
  n <= 0 ->
  divide lst n = if n =? 0 then Raise ValueError else Ok [].
Proof.
  intros Hn. unfold divide, py_range.
  destruct (Z.eqb_spec n 0); [reflexivity|].
  destruct (Z.ltb_spec 0 n); [lia|].
  destruct (Z.ltb_spec (Z.of_nat (List.length lst)) 0); [lia|].
  reflexivity.
Qed.

Lemma divide_nonpositive_size_witness :
  divide [1; 2; 3] 0 = Raise ValueError.
Proof.
  exact (divide_nonpositive_size Z [1; 2; 3] 0 ltac:(lia)).
Defined.

(** ** Lists of identifiers *)

Lemma filter_all {A : Type} (p : A -> bool) (l : list A) :
  (forall x, In x l -> p x = true) -> filter p l = l.
Proof.
  induction l as [|x l IH]; simpl; intros H; [reflexivity|].
  rewrite (H x) by now left. f_equal. apply IH. intros y Hy. apply H. now right.
Qed.

Lemma filter_comm {A : Type} (p q : A -> bool) (l : list A) :
  filter p (filter q l) = filter q (filter p l).
Proof.
  induction l as [|x l IH]; simpl; [reflexivity|].
  destruct (p x) eqn:Ep, (q x) eqn:Eq; simpl; rewrite ?Ep, ?Eq, IH; reflexivity.
Qed.

Lemma py_in_filter (p : string -> bool) (x : string) (ks : list string) :
  py_in x (filter p ks) = py_in x ks && p x.
Proof.
  unfold py_in. induction ks as [|k ks IH]; simpl; [reflexivity|].
  destruct (p k) eqn:Ep; simpl; rewrite IH.
  - destruct (String.eqb_spec x k) as [->|]; simpl; [now rewrite Ep|reflexivity].
  - destruct (String.eqb_spec x k) as [->|]; simpl; [now rewrite Ep, andb_false_r|reflexivity].
Qed.

Lemma filter_py_in_removed (x : string) (ks l : list string) :
  filter (fun y => py_in y (filter (fun k => negb (String.eqb k x)) ks)) l =
  filter (fun y => py_in y ks) (filter (fun y => negb (String.eqb y x)) l).
Proof.
  induction l as [|y l IH]; simpl; [reflexivity|].
  rewrite py_in_filter.
  destruct (py_in y ks) eqn:Ein, (String.eqb y x); simpl;
    rewrite ?Ein, IH; reflexivity.
Qed.

Lemma remove_first_present (x : string) (ks : list string) :
  py_in x ks = true -> exists ks', remove_first x ks = Some ks'.
Proof.
  induction ks as [|k ks IH]; simpl; [discriminate|].
  rewrite String.eqb_sym. destruct (String.eqb k x); simpl.
  - intros _. now exists ks.
  - intros H. destruct (IH H) as (ks' & ->). now exists (k :: ks').
Qed.

(** In a list without repetitions, [remove] leaves no occurrence behind. *)
Lemma remove_first_NoDup (x : string) (ks ks' : list string) :
  NoDup ks -> remove_first x ks = Some ks' ->
  ks' = filter (fun k => negb (String.eqb k x)) ks.
Proof.
  intros Hnd. revert ks'. induction Hnd as [|k ks Hk Hnd IH]; simpl; intros ks'.
  - discriminate.
  - destruct (String.eqb_spec k x) as [->|Hne]; simpl.
    + intros [= <-]. symmetry. apply filter_all. intros y Hy.
      destruct (String.eqb_spec y x) as [->|]; [contradiction|reflexivity].
    + destruct (remove_first x ks) as [r|]; simpl; [|discriminate].
      intros [= <-]. f_equal. now apply IH.
Qed.

Lemma dedup_In (x : string) (l : list string) : In x (dedup l) <-> In x l.
Proof.
  induction l as [|y l IH]; simpl; [tauto|].
  rewrite filter_In, IH, negb_true_iff.
  destruct (String.eqb_spec x y) as [->|Hne]; [tauto|].
  split; [tauto|]. intros [->|H]; [contradiction|tauto].
Qed.

Lemma dedup_NoDup (l : list string) : NoDup (dedup l).
Proof.
  induction l as [|y l IH]; simpl; constructor.
  - rewrite filter_In, String.eqb_refl. intros [_ H]. discriminate.
  - now apply NoDup_filter.
Qed.

Lemma dedup_filter (p : string -> bool) (l : list string) :
  dedup (filter p l) = filter p (dedup l).
Proof.
  induction l as [|y l IH]; simpl; [reflexivity|].
  destruct (p y) eqn:Ep; simpl; rewrite IH.
  - f_equal. apply filter_comm.
  - rewrite filter_comm. symmetry. apply filter_all.
    intros z Hz. apply filter_In in Hz as [_ Hz].
    destruct (String.eqb_spec z y) as [->|]; [congruence|reflexivity].
Qed.

(** ** The loops of [create_stocks] *)

Lemma create_stocks_body_skip (w : Watch) (acc : list Stock.entry)
      (ks : list string) :
  py_in (py_str (code w)) ks = false ->
  create_stocks_body w acc ks = (Ok acc, ks).
Proof.
  intros H. unfold create_stocks_body. run_py. now rewrite H.
Qed.

Lemma create_stocks_body_match (w : Watch) (acc : list Stock.entry)
      (ks : list string) :
  py_in (py_str (code w)) ks = true ->
  create_stocks_body w acc ks =
  match stock_of_quantity (quantity w) with
  | Raise e => (Raise e, ks)
  | Ok z =>
      match remove_first (py_str (code w)) ks with
      | Some ks' =>
          (Ok (acc ++ [ {| Stock.offer_id := py_str (code w);
                           Stock.stock := z |} ]), ks')
      | None => (Raise ValueError, ks)
      end
  end.
Proof.
  intros H. unfold create_stocks_body. run_py. rewrite H.
  destruct (stock_of_quantity (quantity w)); [|reflexivity].
  now destruct (remove_first (py_str (code w)) ks).
Qed.

Lemma create_stocks_rest_loop (ks ks0 : list string) (st : list Stock.entry) :
  for_each ks create_stocks_rest st ks0 = (Ok (st ++ map zero_stock ks), ks0).
Proof.
  revert st. induction ks as [|k ks IH]; intros st; simpl.
  - now rewrite app_nil_r.
  - unfold bind.
    change (create_stocks_rest k st ks0) with (Ok (st ++ [zero_stock k]), ks0).
    cbv beta iota. rewrite IH. now rewrite <- app_assoc.
Qed.

(** [create_stocks] is its first loop followed by the zero entries for
    what the loop left in the list. *)
Lemma create_stocks_eq (I : list Watch) (K : list string) :
  create_stocks I K =
  match for_each I create_stocks_body [] K with
  | (Ok st, K') => (Ok (st ++ map zero_stock K'), K')
  | (Raise e, K') => (Raise e, K')
  end.
Proof.
  unfold create_stocks, bind, elements.
  destruct (for_each I create_stocks_body [] K) as [[st|e] K'];
    [apply create_stocks_rest_loop | reflexivity].
Qed.

(** What the first loop appends, and where each value comes from. *)
Lemma create_stocks_loop_entries (I : list Watch) :
  forall acc ks st ks',
    for_each I create_stocks_body acc ks = (Ok st, ks') ->
    exists matched,
      st = acc ++ matched /\
      forall e, In e matched ->
        exists w, In w I /\
                  Stock.offer_id e = py_str (code w) /\
                  stock_of_quantity (quantity w) = Ok (Stock.stock e).
Proof.
  induction I as [|w I IH]; intros acc ks st ks'; simpl.
  - intros [= <- <-]. exists []. split; [now rewrite app_nil_r | intros e []].
  - unfold bind at 1.
    destruct (py_in (py_str (code w)) ks) eqn:Hin.
    + rewrite create_stocks_body_match by assumption.
      destruct (stock_of_quantity (quantity w)) as [z|] eqn:Hz; [|discriminate].
      destruct (remove_first (py_str (code w)) ks) as [ks1|]; [|discriminate].
      intros H. apply IH in H as (matched & -> & Hm).
      eexists (_ :: matched). split; [now rewrite <- app_assoc|].
      intros e [<-|He].
      * exists w. simpl. auto.
      * destruct (Hm e He) as (w' & ? & ?). exists w'. simpl. auto.
    + rewrite create_stocks_body_skip by assumption.
      intros H. apply IH in H as (matched & -> & Hm).
      exists matched. split; [reflexivity|].
      intros e He. destruct (Hm e He) as (w' & ? & ?). exists w'. simpl. auto.
Qed.

(** The first loop on a list without repetitions: what is left of the
    list, and the identifiers of the appended entries. *)
Lemma create_stocks_loop_ids (I : list Watch) :
  forall acc ks st ks',
    NoDup ks ->
    for_each I create_stocks_body acc ks = (Ok st, ks') ->
    ks' = filter (fun k => negb (py_in k (inventory_ids I))) ks /\
    exists matched,
      st = acc ++ matched /\
      map Stock.offer_id matched =
      dedup (filter (fun x => py_in x ks) (inventory_ids I)).
Proof.
  induction I as [|w I IH]; intros acc ks st ks' Hnd; simpl.
  - intros [= <- <-]. split.
    + symmetry. now apply filter_all.
    + exists []. now rewrite app_nil_r.
  - unfold bind at 1. set (id := py_str (code w)).
    destruct (py_in id ks) eqn:Hin.
    + rewrite create_stocks_body_match by assumption. fold id.
      destruct (stock_of_quantity (quantity w)) as [z|]; [|discriminate].
      destruct (remove_first id ks) as [ks1|] eqn:Hrm; [|discriminate].
      apply remove_first_NoDup in Hrm; [|assumption]. subst ks1.
      intros H. apply IH in H as (-> & matched & -> & Hm);
        [|now apply NoDup_filter].
      split.
      * rewrite filter_comm. simpl. clear.
        induction ks as [|k ks IHks]; simpl; [reflexivity|].
        destruct (py_in k (inventory_ids I)), (String.eqb k id) eqn:E;
          simpl; rewrite ?E; simpl; rewrite IHks; reflexivity.
      * eexists (_ :: matched). split; [now rewrite <- app_assoc|].
        simpl. f_equal. rewrite Hm, <- dedup_filter, filter_comm. f_equal.
        apply filter_py_in_removed.
    + rewrite create_stocks_body_skip by assumption.
      intros H. apply IH in H as (-> & matched & -> & Hm); [|assumption].
      apply py_in_not_In in Hin. split.
      * apply filter_ext_in. intros k Hk. simpl. fold id.
        destruct (String.eqb_spec k id) as [->|]; [contradiction|reflexivity].
      * exists matched. split; [reflexivity|]. now rewrite Hm.
Qed.

(** The first loop raises only through [int]. *)
Lemma create_stocks_loop_total (I : list Watch) :
  forall acc ks,
    (forall w, In w I -> exists z, stock_of_quantity (quantity w) = Ok z) ->
    exists st ks', for_each I create_stocks_body acc ks = (Ok st, ks').
Proof.
  induction I as [|w I IH]; intros acc ks HI; simpl.
  - now exists acc, ks.
  - unfold bind at 1. destruct (py_in (py_str (code w)) ks) eqn:Hin.
    + rewrite create_stocks_body_match by assumption.
      destruct (HI w (or_introl eq_refl)) as (z & ->).
      destruct (remove_first_present _ _ Hin) as (ks1 & ->).
      apply IH. intros w' Hw'. apply HI. now right.
    + rewrite create_stocks_body_skip by assumption.
      apply IH. intros w' Hw'. apply HI. now right.
Qed.

Lemma map_offer_id_zero_stock (ks : list string) :
  map Stock.offer_id (map zero_stock ks) = ks.
Proof.
  rewrite map_map. simpl. apply map_id.
Qed.

(** C2.  For a list [K] of known offers without repetitions,
    [create_stocks(I, K)] returns (it returns whenever every quantity can be
    converted) exactly [|K|] entries, one per identifier of [K], none twice
    and none missing: first the entries of the matched inventory rows, in
    the order of the inventory, then an entry with stock [0] for every
    identifier of [K] that the inventory does not have, in the order of
    [K]. *)
Theorem create_stocks_one_entry_per_offer (I : list Watch) (K : list string) :
  NoDup K ->
  ((forall w, In w I -> exists z, stock_of_quantity (quantity w) = Ok z) ->
   exists stocks K', create_stocks I K = (Ok stocks, K')) /\
  (forall stocks K',
      create_stocks I K = (Ok stocks, K') ->
      List.length stocks = List.length K /\
      NoDup (map Stock.offer_id stocks) /\
      Permutation (map Stock.offer_id stocks) K /\
      exists matched,
        stocks =
        matched ++
        map zero_stock
            (filter (fun k => negb (py_in k (inventory_ids I))) K) /\
        map Stock.offer_id matched =
        dedup (filter (fun x => py_in x K) (inventory_ids I))).
Proof.
  intros Hnd. split.
  - intros HI. rewrite create_stocks_eq.
    destruct (create_stocks_loop_total I [] K HI) as (st & ks' & ->).
    eauto.
  - intros stocks K'. rewrite create_stocks_eq.
    destruct (for_each I create_stocks_body [] K) as [[st|e] K1] eqn:Hloop;
      [|discriminate].
    intros [= <- <-].
    apply create_stocks_loop_ids in Hloop as (-> & matched & -> & Hm);
      [|assumption].
    simpl in *.
    set (rest := filter (fun k => negb (py_in k (inventory_ids I))) K).
    assert (Hids : map Stock.offer_id (matched ++ map zero_stock rest)
                   = dedup (filter (fun x => py_in x K) (inventory_ids I))
                     ++ rest).
    { now rewrite map_app, map_offer_id_zero_stock, Hm. }
    assert (Hnd' : NoDup (map Stock.offer_id (matched ++ map zero_stock rest))).
    { rewrite Hids. apply NoDup_app.
      - apply dedup_NoDup.
      - now apply NoDup_filter.
      - intros x Hx Hr. apply dedup_In, filter_In in Hx as [Hx _].
        apply filter_In in Hr as [_ Hr].
        apply py_in_In in Hx. rewrite Hx in Hr. discriminate. }
    assert (Hperm : Permutation
                      (map Stock.offer_id (matched ++ map zero_stock rest)) K).
    { apply NoDup_Permutation; [assumption | assumption |].
      intros x. rewrite Hids, in_app_iff, dedup_In. unfold rest.
      rewrite !filter_In, negb_true_iff, py_in_In, py_in_not_In.
      destruct (in_dec string_dec x (inventory_ids I)); tauto. }
    repeat split; try assumption.
    + rewrite <- (length_map Stock.offer_id). now apply Permutation_length.
    + now exists matched.
Qed.

Lemma create_stocks_one_entry_per_offer_witness :
  exists stocks K',
    create_stocks
      [ {| code := PyStr "B"; quantity := PyStr "7"; price := PyStr "100.00" |};
        {| code := PyInt 12; quantity := PyStr ">10"; price := PyNone |} ]
      ["12"; "A"; "B"] = (Ok stocks, K') /\
    map Stock.offer_id stocks = ["B"; "12"; "A"] /\
    Permutation (map Stock.offer_id stocks) ["12"; "A"; "B"].
Proof.
  assert (Hnd : NoDup ["12"; "A"; "B"]).
  { repeat constructor; simpl; intuition discriminate. }
  destruct (create_stocks_one_entry_per_offer
              [ {| code := PyStr "B"; quantity := PyStr "7";
                   price := PyStr "100.00" |};
                {| code := PyInt 12; quantity := PyStr ">10";
                   price := PyNone |} ]
              ["12"; "A"; "B"] Hnd) as [_ H].
  eexists _, _. split; [reflexivity|].
  split; [reflexivity|].
  exact (proj1 (proj2 (proj2 (H _ _ eq_refl)))).
Defined.

(** ** [create_prices] *)

Lemma create_prices_body_eq (w : Watch) (acc : list Price.entry)
      (ks : list string) :
  create_prices_body w acc ks =
  if py_in (py_str (code w)) ks then
    match price_conversion (price w) with
    | Ok p =>
        (Ok (acc ++ [ {| Price.auto_action_enabled := "UNKNOWN";
                         Price.currency_code := "RUB";
                         Price.offer_id := py_str (code w);
                         Price.old_price := "0";
                         Price.price := p |} ]), ks)
    | Raise e => (Raise e, ks)
    end
  else (Ok acc, ks).
Proof.
  unfold create_prices_body. run_py.
  destruct (py_in (py_str (code w)) ks); [|reflexivity].
  now destruct (price_conversion (price w)).
Qed.

(** The loop of [create_prices] never writes to the list. *)
Lemma create_prices_loop_frame (I : list Watch) :
  forall acc ks, snd (for_each I create_prices_body acc ks) = ks.
Proof.
  induction I as [|w I IH]; intros acc ks; simpl; [reflexivity|].
  unfold bind. rewrite create_prices_body_eq.
  destruct (py_in (py_str (code w)) ks); [|apply IH].
  destruct (price_conversion (price w)); [apply IH | reflexivity].
Qed.

(** Without a matching row the loop appends nothing, whatever the prices
    are. *)
Lemma create_prices_loop_none (I : list Watch) :
  forall acc ks,
    (forall w, In w I -> ~ In (py_str (code w)) ks) ->
    for_each I create_prices_body acc ks = (Ok acc, ks).
Proof.
  induction I as [|w I IH]; intros acc ks HI; simpl; [reflexivity|].
  unfold bind. rewrite create_prices_body_eq.
  rewrite (proj2 (py_in_not_In _ _) (HI w (or_introl eq_refl))).
  apply IH. intros w' Hw'. apply HI. now right.
Qed.

Lemma create_prices_loop_entries (I : list Watch) :
  forall acc ks prices ks',
    for_each I create_prices_body acc ks = (Ok prices, ks') ->
    exists new,
      prices = acc ++ new /\
      map Price.offer_id new =
      filter (fun x => py_in x ks) (inventory_ids I) /\
      forall p, In p new ->
        exists w, In w I /\
                  Price.offer_id p = py_str (code w) /\
                  price_conversion (price w) = Ok (Price.price p) /\
                  Price.currency_code p = "RUB" /\
                  Price.auto_action_enabled p = "UNKNOWN" /\
                  Price.old_price p = "0".
Proof.
  induction I as [|w I IH]; intros acc ks prices ks'; simpl.
  - intros [= <- <-]. exists []. rewrite app_nil_r.
    repeat split. intros p [].
  - unfold bind. rewrite create_prices_body_eq.
    destruct (py_in (py_str (code w)) ks) eqn:Hin.
    + destruct (price_conversion (price w)) as [s|] eqn:Hs; [|discriminate].
      intros H. apply IH in H as (new & -> & Hids & Hnew).
      eexists (_ :: new). split; [now rewrite <- app_assoc|].
      split; [simpl; now rewrite Hids|].
      intros p [<-|Hp].
      * exists w. simpl. auto 10.
      * destruct (Hnew p Hp) as (w' & ? & ?). exists w'. simpl. auto.
    + intros H. apply IH in H as (new & -> & Hids & Hnew).
      exists new. repeat split; [assumption|].
      intros p Hp. destruct (Hnew p Hp) as (w' & ? & ?). exists w'. simpl. auto.
Qed.

(** C7.  [create_prices(I, K)] emits one entry per inventory row whose
    identifier ([str] of its code) is in [K], and none else: the identifier
    of every entry is both in the inventory and in [K], its price is
    [price_conversion] of the row's price and the other three fields are
    the constants ["RUB"], ["UNKNOWN"] and ["0"].  With the inventory
    [[{code: "A", price: "1000"}]] and the known offers [["B"]] the result
    is empty. *)
Theorem create_prices_only_common_offers :
  (forall (I : list Watch) (K K' : list string) (prices : list Price.entry),
      create_prices I K = (Ok prices, K') ->
      map Price.offer_id prices =
      filter (fun x => py_in x K) (inventory_ids I) /\
      forall p, In p prices ->
        In (Price.offer_id p) K /\
        exists w, In w I /\
                  Price.offer_id p = py_str (code w) /\
                  price_conversion (price w) = Ok (Price.price p) /\
                  Price.currency_code p = "RUB" /\
                  Price.auto_action_enabled p = "UNKNOWN" /\
                  Price.old_price p = "0") /\
  (forall q : PyVal,
      create_prices
        [ {| code := PyStr "A"; quantity := q; price := PyStr "1000" |} ]
        ["B"] = (Ok [], ["B"])).
Proof.
  split; [|reflexivity].
  intros I K K' prices H.
  apply create_prices_loop_entries in H as (new & -> & Hids & Hnew).
  simpl. split; [assumption|].
  intros p Hp. split; [|now apply Hnew].
  apply (in_map Price.offer_id) in Hp. rewrite Hids in Hp.
  apply filter_In in Hp as [_ Hp]. now apply py_in_In.
Qed.

Lemma create_prices_only_common_offers_witness :
  map Price.offer_id
      [ {| Price.auto_action_enabled := "UNKNOWN"; Price.currency_code := "RUB";
           Price.offer_id := "A"; Price.old_price := "0";
           Price.price := "5990" |};
        {| Price.auto_action_enabled := "UNKNOWN"; Price.currency_code := "RUB";
           Price.offer_id := "B"; Price.old_price := "0";
           Price.price := "100" |} ] =
  filter (fun x => py_in x scenario_offers) (inventory_ids scenario_inventory).
Proof.
  exact (proj1 (proj1 create_prices_only_common_offers
                      scenario_inventory scenario_offers scenario_offers
                      _ eq_refl)).
Defined.

(** C8.  [create_prices(I, K)] leaves [K] as it was, whether it returns or
    raises; [create_stocks] does not. *)
Theorem create_prices_keeps_offer_ids :
  (forall (I : list Watch) (K : list string), snd (create_prices I K) = K) /\
  snd (create_stocks scenario_inventory scenario_offers) <> scenario_offers.
Proof.
  split; [|discriminate].
  intros I K. apply create_prices_loop_frame.
Qed.

(** C1.  When the list [K] has no repetitions and [create_stocks(I, K)]
    has returned, no identifier of the inventory is left in the list, so
    [create_prices], called with the same list as [main] does, returns the
    empty list; [main] makes no call of [update_price]. *)
Theorem create_prices_after_create_stocks_empty (I : list Watch)
        (K : list string) :
  NoDup K ->
  (forall stocks K',
      create_stocks I K = (Ok stocks, K') ->
      (forall w, In w I -> ~ In (py_str (code w)) K') /\
      create_prices I K' = (Ok [], K')) /\
  (forall c, In c (main K I) -> is_update_price c = false).
Proof.
  intros Hnd.
  assert (Hfirst : forall stocks K',
             create_stocks I K = (Ok stocks, K') ->
             (forall w, In w I -> ~ In (py_str (code w)) K') /\
             create_prices I K' = (Ok [], K')).
  { intros stocks K'. rewrite create_stocks_eq.
    destruct (for_each I create_stocks_body [] K) as [[st|e] K1] eqn:Hloop;
      [|discriminate].
    intros [= <- <-].
    apply create_stocks_loop_ids in Hloop as (-> & _); [|assumption].
    assert (Hleft : forall w, In w I ->
              ~ In (py_str (code w))
                   (filter (fun k => negb (py_in k (inventory_ids I))) K)).
    { intros w Hw Hin. apply filter_In in Hin as [_ Hin].
      apply negb_true_iff, py_in_not_In in Hin. apply Hin.
      unfold inventory_ids. now apply (in_map (fun w => py_str (code w))). }
    split; [assumption|]. now apply create_prices_loop_none. }
  split; [assumption|].
  intros c. unfold main.
  destruct (create_stocks I K) as [[stocks|e] K'] eqn:Hcs; [|intros []].
  destruct (divide stocks 100) as [chunks|e]; [|intros []].
  rewrite (proj2 (Hfirst stocks K' eq_refl)).
  change (divide (@nil Price.entry) 900) with (@Ok (list (list Price.entry)) []).
  simpl. rewrite app_nil_r. intros Hc.
  apply in_map_iff in Hc as (b & <- & _). reflexivity.
Qed.

Lemma create_prices_after_create_stocks_empty_witness :
  create_prices scenario_inventory ["C"] = (Ok [], ["C"]) /\
  forall c, In c (main scenario_offers scenario_inventory) ->
            is_update_price c = false.
Proof.
  assert (Hnd : NoDup scenario_offers).
  { repeat constructor; simpl; intuition discriminate. }
  destruct (create_prices_after_create_stocks_empty
              scenario_inventory scenario_offers Hnd) as [H1 H2].
  split; [|exact H2].
  exact (proj2 (H1 _ ["C"] eq_refl)).
Defined.

(** ** The quantity rule *)

Lemma digit_not_space (c : ascii) : is_digit c = true -> is_space c = false.
Proof.
  destruct c as [[] [] [] [] [] [] [] []]; intros H;
    try discriminate H; reflexivity.
Qed.

Lemma digit_not_sign (c : ascii) :
  is_digit c = true ->
  Ascii.eqb c "-" = false /\ Ascii.eqb c "+" = false.
Proof.
  destruct c as [[] [] [] [] [] [] [] []]; intros H;
    try discriminate H; split; reflexivity.
Qed.

Lemma digit_value_nonneg (c : ascii) : is_digit c = true -> 0 <= digit_value c.
Proof.
  destruct c as [[] [] [] [] [] [] [] []]; intros H;
    try discriminate H; now vm_compute.
Qed.

Lemma lstrip_digits (s : string) :
  string_forallb is_digit s = true -> lstrip s = s.
Proof.
  destruct s as [|c s]; simpl; [reflexivity|].
  intros H. apply andb_true_iff in H as [Hc _].
  now rewrite (digit_not_space c Hc).
Qed.

Lemma rstrip_digits (s : string) :
  string_forallb is_digit s = true -> rstrip s = s.
Proof.
  induction s as [|c s IH]; simpl; [reflexivity|].
  intros H. apply andb_true_iff in H as [Hc Hs].
  rewrite (IH Hs). destruct s; [|reflexivity].
  now rewrite (digit_not_space c Hc).
Qed.

Lemma parse_digits_nonneg (s : string) :
  forall acc,
    0 <= acc -> string_forallb is_digit s = true ->
    exists z, parse_digits acc false s = Some z /\ 0 <= z.
Proof.
  induction s as [|c s IH]; cbn [parse_digits string_forallb];
    intros acc Hacc H.
  - now exists acc.
  - apply andb_true_iff in H as [Hc Hs]. rewrite Hc.
    apply IH; [|assumption].
    pose proof (digit_value_nonneg c Hc). lia.
Qed.

Lemma parse_int_digits (s : string) :
  s <> "" -> string_forallb is_digit s = true ->
  exists z, parse_int s = Some z /\ 0 <= z.
Proof.
  intros Hne H. unfold parse_int, strip.
  rewrite (lstrip_digits s H), (rstrip_digits s H).
  destruct s as [|c s]; [congruence|].
  simpl in H. apply andb_true_iff in H as [Hc Hs].
  destruct (digit_not_sign c Hc) as [-> ->].
  unfold parse_unsigned. rewrite Hc.
  apply parse_digits_nonneg; [now apply digit_value_nonneg | assumption].
Qed.

Lemma feed_quantity_stock (q : PyVal) :
  feed_quantity q -> exists z, stock_of_quantity q = Ok z /\ 0 <= z.
Proof.
  intros (s & -> & [-> | [-> | [Hne Hd]]]).
  - exists 100. split; [reflexivity | lia].
  - exists 0. split; [reflexivity | lia].
  - unfold stock_of_quantity. simpl.
    destruct (String.eqb s ">10"); [exists 100; split; [reflexivity | lia]|].
    destruct (String.eqb s "1"); [exists 0; split; [reflexivity | lia]|].
    destruct (parse_int_digits s Hne Hd) as (z & -> & Hz). now exists z.
Qed.

(** C9, as the claim states it, fails: the quantity string ["-5"] of a
    matched row is converted by [int] to the stock [-5]. *)
Lemma create_stocks_negative_stock_counterexample :
  (exists s, quantity {| code := PyStr "A"; quantity := PyStr "-5";
                         price := PyStr "100.00" |} = PyStr s) /\
  create_stocks [ {| code := PyStr "A"; quantity := PyStr "-5";
                     price := PyStr "100.00" |} ] ["A"]
  = (Ok [ {| Stock.offer_id := "A"; Stock.stock := -5 |} ], []) /\
  ~ (0 <= Stock.stock {| Stock.offer_id := "A"; Stock.stock := -5 |}).
Proof.
  split; [now exists "-5"|]. split; [reflexivity|].
  simpl. lia.
Qed.

(** C9, amended.  When every quantity of the inventory is ">10", "1" or a
    non-empty string of decimal digits, [create_stocks] returns and every
    entry it returns has a stock that is not negative. *)
Theorem create_stocks_nonnegative_stock (I : list Watch) (K : list string) :
  (forall w, In w I -> feed_quantity (quantity w)) ->
  exists stocks K',
    create_stocks I K = (Ok stocks, K') /\
    forall e, In e stocks -> 0 <= Stock.stock e.
Proof.
  intros HI. rewrite create_stocks_eq.
  destruct (create_stocks_loop_total I [] K) as (st & K' & Hloop).
  { intros w Hw. destruct (feed_quantity_stock _ (HI w Hw)) as (z & Hz & _).
    now exists z. }
  rewrite Hloop. exists (st ++ map zero_stock K'), K'. split; [reflexivity|].
  apply create_stocks_loop_entries in Hloop as (matched & -> & Hm).
  simpl. intros e He. apply in_app_iff in He as [He|He].
  - destruct (Hm e He) as (w & Hw & _ & Hs).
    destruct (feed_quantity_stock _ (HI w Hw)) as (z & Hz & Hpos).
    congruence.
  - apply in_map_iff in He as (k & <- & _). simpl. lia.
Qed.

Lemma create_stocks_nonnegative_stock_witness :
  exists stocks K',
    create_stocks scenario_inventory scenario_offers = (Ok stocks, K') /\
    forall e, In e stocks -> 0 <= Stock.stock e.
Proof.
  apply (create_stocks_nonnegative_stock scenario_inventory scenario_offers).
  intros w [<- | [<- | []]].
  - exists ">10". split; [reflexivity | now left].
  - exists "1". split; [reflexivity | right; now left].
Defined.

(** ** Integer literals and [int] *)

Lemma sapp_assoc (a b c : string) :
  ((a ++ b) ++ c)%string = (a ++ (b ++ c))%string.
Proof.
  induction a as [|x a IH]; simpl; [reflexivity | now rewrite IH].
Qed.

Lemma sapp_empty_r (a : string) : (a ++ "")%string = a.
Proof.
  induction a as [|x a IH]; simpl; [reflexivity | now rewrite IH].
Qed.

Lemma string_forallb_app (p : ascii -> bool) (a b : string) :
  string_forallb p (a ++ b)%string = string_forallb p a && string_forallb p b.
Proof.
  induction a as [|x a IH]; simpl; [reflexivity|].
  now rewrite IH, andb_assoc.
Qed.

Lemma string_forallb_ext (p q : ascii -> bool) (s : string) :
  (forall c, p c = q c) -> string_forallb p s = string_forallb q s.
Proof.
  intros H. induction s as [|c s IH]; simpl; [reflexivity|].
  now rewrite H, IH.
Qed.

Lemma is_space_white (c : ascii) :
  is_space c = existsb (Ascii.eqb c) literal_white_space.
Proof.
  destruct c as [[] [] [] [] [] [] [] []]; reflexivity.
Qed.

Lemma digit_value_position (c : ascii) :
  is_digit c = true -> digit_value c = position c ascii_decimal_digits.
Proof.
  destruct c as [[] [] [] [] [] [] [] []]; intros H;
    try discriminate H; reflexivity.
Qed.

Lemma digit_not_underscore (c : ascii) :
  is_digit c = true -> Ascii.eqb c "_" = false.
Proof.
  destruct c as [[] [] [] [] [] [] [] []]; intros H;
    try discriminate H; reflexivity.
Qed.

Lemma made_of_digits (s : string) :
  made_of ascii_decimal_digits s = string_forallb is_digit s.
Proof.
  apply string_forallb_ext. intros c. symmetry. apply is_digit_decimal.
Qed.

Lemma made_of_white (s : string) :
  made_of literal_white_space s = string_forallb is_space s.
Proof.
  apply string_forallb_ext. intros c. symmetry. apply is_space_white.
Qed.

Lemma digit_run_digits (s : string) :
  digit_run s <-> s <> "" /\ string_forallb is_digit s = true.
Proof.
  unfold digit_run. now rewrite made_of_digits.
Qed.

(** *** White space around the literal *)

Lemma lstrip_white (l s : string) :
  string_forallb is_space l = true -> lstrip (l ++ s) = lstrip s.
Proof.
  induction l as [|c l IH]; simpl; [reflexivity|].
  intros H. apply andb_true_iff in H as [-> Hl]. now apply IH.
Qed.

Lemma lstrip_split (s : string) :
  exists l, s = (l ++ lstrip s)%string /\ string_forallb is_space l = true.
Proof.
  induction s as [|c s (l & Hs & Hl)]; simpl.
  - now exists "".
  - destruct (is_space c) eqn:Ec.
    + exists (String c l). simpl. rewrite Ec, Hl. split; [now f_equal | reflexivity].
    + now exists "".
Qed.

Lemma rstrip_white (r : string) :
  string_forallb is_space r = true -> rstrip r = "".
Proof.
  induction r as [|c r IH]; simpl; [reflexivity|].
  intros H. apply andb_true_iff in H as [-> Hr]. now rewrite IH.
Qed.

Lemma rstrip_app_white (s r : string) :
  string_forallb is_space r = true -> rstrip (s ++ r) = rstrip s.
Proof.
  intros Hr. induction s as [|c s IH]; simpl.
  - now apply rstrip_white.
  - now rewrite IH.
Qed.

Lemma rstrip_no_space (s : string) :
  string_forallb (fun c => negb (is_space c)) s = true -> rstrip s = s.
Proof.
  induction s as [|c s IH]; simpl; [reflexivity|].
  intros H. apply andb_true_iff in H as [Hc Hs]. rewrite (IH Hs).
  apply negb_true_iff in Hc. rewrite Hc. now destruct s.
Qed.

Lemma rstrip_split (s : string) :
  exists r, s = (rstrip s ++ r)%string /\ string_forallb is_space r = true.
Proof.
  induction s as [|c s (r & Hs & Hr)]; simpl.
  - now exists "".
  - destruct (rstrip s) as [|c' t] eqn:Et.
    + simpl in Hs. subst r. destruct (is_space c) eqn:Ec.
      * exists (String c s). simpl. now rewrite Ec, Hr.
      * now exists s.
    + exists r. split; [|assumption]. simpl. f_equal. exact Hs.
Qed.

Lemma lstrip_no_space (b r : string) :
  b <> "" ->
  string_forallb (fun c => negb (is_space c)) b = true ->
  lstrip (b ++ r) = (b ++ r)%string.
Proof.
  destruct b as [|c b]; [congruence|]. simpl. intros _ H.
  apply andb_true_iff in H as [Hc _]. apply negb_true_iff in Hc.
  now rewrite Hc.
Qed.

Lemma digits_no_space (s : string) :
  string_forallb is_digit s = true ->
  string_forallb (fun c => negb (is_space c)) s = true.
Proof.
  induction s as [|c s IH]; simpl; [reflexivity|].
  intros H. apply andb_true_iff in H as [Hc Hs].
  now rewrite (digit_not_space c Hc), IH.
Qed.

Lemma runs_no_space (gs : list string) :
  Forall digit_run gs ->
  string_forallb (fun c => negb (is_space c)) (glue (map (String "_") gs))
  = true.
Proof.
  induction 1 as [|g gs Hg _ IH]; simpl; [reflexivity|].
  apply digit_run_digits in Hg as [_ Hg].
  now rewrite string_forallb_app, (digits_no_space g Hg), IH.
Qed.

(** *** The digits *)

Lemma decimal_from_app (a b : string) :
  forall acc, decimal_from acc (a ++ b) = decimal_from (decimal_from acc a) b.
Proof.
  induction a as [|c a IH]; intros acc; simpl; [reflexivity | apply IH].
Qed.

Lemma parse_digits_runs (gs : list string) :
  Forall digit_run gs ->
  forall t acc us,
    string_forallb is_digit t = true ->
    (us = true -> t <> "") ->
    parse_digits acc us (t ++ glue (map (String "_") gs))
    = Some (decimal_from acc (t ++ glue gs)).
Proof.
  induction 1 as [|g gs Hg Hgs IH]; intros t; induction t as [|c t IHt];
    intros acc us Ht Hus; cbn [append glue map parse_digits decimal_from].
  - destruct us; [now destruct (Hus eq_refl) | reflexivity].
  - cbn [string_forallb] in Ht. apply andb_true_iff in Ht as [Hc Ht].
    rewrite Hc, (digit_value_position c Hc).
    apply (IHt _ false Ht). discriminate.
  - destruct us; [now destruct (Hus eq_refl)|].
    change (is_digit "_") with false. change (Ascii.eqb "_" "_") with true.
    cbv iota. apply digit_run_digits in Hg as [Hne Hg].
    now apply IH.
  - cbn [string_forallb] in Ht. apply andb_true_iff in Ht as [Hc Ht].
    rewrite Hc, (digit_value_position c Hc).
    apply (IHt _ false Ht). discriminate.
Qed.

Lemma parse_digits_sound (s : string) :
  forall acc us v,
    parse_digits acc us s = Some v ->
    exists t gs,
      string_forallb is_digit t = true /\
      Forall digit_run gs /\
      s = (t ++ glue (map (String "_") gs))%string /\
      v = decimal_from acc (t ++ glue gs) /\
      (us = true -> t <> "").
Proof.
  induction s as [|c s IH]; intros acc us v; cbn [parse_digits].
  - destruct us; [discriminate|]. intros [= <-].
    exists "", []. split; [reflexivity|]. split; [constructor|].
    split; [reflexivity|]. split; [reflexivity|]. intros E; discriminate E.
  - destruct (is_digit c) eqn:Hc.
    + intros H. apply IH in H as (t & gs & Ht & Hgs & -> & -> & _).
      exists (String c t), gs. cbn [string_forallb append decimal_from].
      rewrite Hc, Ht, <- (digit_value_position c Hc).
      repeat split; try assumption. discriminate.
    + destruct (Ascii.eqb_spec c "_"%char) as [->|]; [|discriminate].
      destruct us; [discriminate|].
      intros H. apply IH in H as (t & gs & Ht & Hgs & -> & -> & Hne).
      exists "", (t :: gs). repeat split.
      * constructor; [|assumption]. apply digit_run_digits. auto.
      * discriminate.
Qed.

Lemma parse_unsigned_runs (g : string) (gs : list string) :
  digit_run g -> Forall digit_run gs ->
  parse_unsigned (g ++ glue (map (String "_") gs))
  = Some (decimal_from 0 (g ++ glue gs)).
Proof.
  intros Hg Hgs. apply digit_run_digits in Hg as [Hne Hg].
  destruct g as [|c g]; [congruence|].
  cbn [string_forallb] in Hg. apply andb_true_iff in Hg as [Hc Hg].
  cbn [append parse_unsigned decimal_from]. rewrite Hc.
  rewrite (parse_digits_runs gs Hgs g _ false Hg) by discriminate.
  rewrite (digit_value_position c Hc). do 2 f_equal; lia.
Qed.

Lemma parse_unsigned_sound (s : string) (v : Z) :
  parse_unsigned s = Some v ->
  exists g gs,
    digit_run g /\ Forall digit_run gs /\
    s = (g ++ glue (map (String "_") gs))%string /\
    v = decimal_from 0 (g ++ glue gs).
Proof.
  destruct s as [|c s]; cbn [parse_unsigned]; [discriminate|].
  destruct (is_digit c) eqn:Hc; [|discriminate].
  intros H. apply parse_digits_sound in H as (t & gs & Ht & Hgs & -> & -> & _).
  exists (String c t), gs. repeat split; try assumption.
  - discriminate.
  - rewrite made_of_digits. cbn [string_forallb]. now rewrite Hc, Ht.
  - cbn [append decimal_from]. rewrite (digit_value_position c Hc).
    f_equal; lia.
Qed.

(** *** [int] takes the integer literals for their numbers, and nothing
    else *)

Lemma parse_int_complete (q : string) (z : Z) :
  int_literal q z -> parse_int q = Some z.
Proof.
  intros (l & sign & g & gs & r & -> & Hl & Hr & Hg & Hgs & Hz).
  rewrite made_of_white in Hl, Hr.
  pose proof (parse_unsigned_runs g gs Hg Hgs) as Hp.
  assert (Hbody : string_forallb (fun c => negb (is_space c))
                    (g ++ glue (map (String "_") gs))%string = true).
  { rewrite string_forallb_app, (runs_no_space gs Hgs).
    apply digit_run_digits in Hg as [_ Hg].
    now rewrite (digits_no_space g Hg). }
  assert (Hsign : string_forallb (fun c => negb (is_space c)) sign = true).
  { destruct Hz as [[[-> | ->] _] | [-> _]]; reflexivity. }
  assert (Hstrip :
            strip (l ++ sign ++ g ++ glue (map (String "_") gs) ++ r)%string
            = (sign ++ g ++ glue (map (String "_") gs))%string).
  { unfold strip. rewrite (lstrip_white l _ Hl).
    rewrite <- (sapp_assoc g), <- (sapp_assoc sign).
    set (body := (sign ++ g ++ glue (map (String "_") gs))%string).
    assert (Hb : string_forallb (fun c => negb (is_space c)) body = true).
    { unfold body. now rewrite string_forallb_app, Hsign, Hbody. }
    assert (Hne : body <> "").
    { unfold body. apply digit_run_digits in Hg as [Hne _].
      destruct sign, g; simpl; congruence. }
    pose proof (lstrip_no_space body r Hne Hb) as Hlb.
    rewrite Hlb, (rstrip_app_white _ _ Hr). now apply rstrip_no_space. }
  unfold parse_int. rewrite Hstrip.
  apply digit_run_digits in Hg as [Hne Hg].
  destruct Hz as [[[-> | ->] ->] | [-> ->]].
  - destruct g as [|c g]; [congruence|].
    cbn [append] in *. cbn [string_forallb] in Hg.
    apply andb_true_iff in Hg as [Hc _].
    now destruct (digit_not_sign c Hc) as [-> ->].
  - cbn [append]. change (Ascii.eqb "+" "-") with false.
    change (Ascii.eqb "+" "+") with true. cbv iota. exact Hp.
  - cbn [append]. change (Ascii.eqb "-" "-") with true. cbv iota.
    now rewrite Hp.
Qed.

Lemma parse_int_sound (q : string) (z : Z) :
  parse_int q = Some z -> int_literal q z.
Proof.
  unfold parse_int, strip.
  destruct (lstrip_split q) as (l & Hq & Hl).
  destruct (rstrip_split (lstrip q)) as (r & Hq' & Hr).
  rewrite <- made_of_white in Hl, Hr.
  destruct (rstrip (lstrip q)) as [|c s] eqn:Es; [discriminate|].
  assert (Hlit : forall sign v,
             String c s = (sign ++ v)%string ->
             q = (l ++ sign ++ v ++ r)%string).
  { intros sign v E. rewrite Hq at 1. f_equal. rewrite Hq' at 1.
    now rewrite E, sapp_assoc. }
  destruct (Ascii.eqb_spec c "-"%char) as [->|Hm].
  - destruct (parse_unsigned s) as [v|] eqn:Hp; [|discriminate].
    intros [= <-].
    apply parse_unsigned_sound in Hp as (g & gs & Hg & Hgs & -> & ->).
    exists l, "-", g, gs, r.
    split; [rewrite <- (sapp_assoc g); now apply (Hlit "-")|].
    repeat (split; [assumption|]). right. now split.
  - destruct (Ascii.eqb_spec c "+"%char) as [->|Hp'].
    + intros Hp.
      apply parse_unsigned_sound in Hp as (g & gs & Hg & Hgs & -> & ->).
      exists l, "+", g, gs, r.
      split; [rewrite <- (sapp_assoc g); now apply (Hlit "+")|].
      repeat (split; [assumption|]). left. split; [now right | reflexivity].
    + intros Hp.
      apply parse_unsigned_sound in Hp as (g & gs & Hg & Hgs & E & ->).
      exists l, "", g, gs, r.
      split; [rewrite <- (sapp_assoc g); apply (Hlit ""); exact E|].
      repeat (split; [assumption|]). left. split; [now left | reflexivity].
Qed.

Lemma parse_int_literal (q : string) (z : Z) :
  parse_int q = Some z <-> int_literal q z.
Proof.
  split; [apply parse_int_sound | apply parse_int_complete].
Qed.



(** ** The paging loop of [get_offer_ids] *)

Section CatalogueFacts.
Variable get_product_list : nat -> string -> result Page.
Variable pages : nat -> Page.
Variable n : nat.

Hypothesis Hanswered :
  forall k, (k <= n)%nat -> answered get_product_list pages k.
Hypothesis Hmore : forall k, (k < n)%nat -> ~ complete pages k.
Hypothesis Hdone : complete pages n.

Lemma seen_S (k : nat) : seen pages k ++ items (pages k) = fetched pages k.
Proof.
  unfold seen, fetched. rewrite seq_S, flat_map_app. simpl.
  now rewrite app_nil_r.
Qed.

(** Entered for request [k] with enough fuel, the loop leaves at request
    [n]. *)
Lemma get_offer_ids_loop_stops (d : nat) :
  forall k fuel,
    (k + d = n)%nat -> (d < fuel)%nat ->
    get_offer_ids_loop get_product_list fuel k (cursor pages k)
                       (seen pages k)
    = Some (Ok (fetched pages n)).
Proof.
  induction d as [|d IH]; intros k [|fuel] Hk Hfuel; try lia; simpl.
  - rewrite (Hanswered k) by lia. rewrite seen_S.
    replace k with n in * by lia.
    unfold complete in Hdone. rewrite Hdone, Z.eqb_refl. reflexivity.
  - rewrite (Hanswered k) by lia. rewrite seen_S.
    destruct (Z.eqb_spec (total (pages k))
                         (Z.of_nat (List.length (fetched pages k))))
      as [E|_].
    + exfalso. apply (Hmore k); [lia | exact E].
    + apply (IH (S k) fuel); lia.
Qed.

(** With less fuel the loop is still running. *)
Lemma get_offer_ids_loop_running (fuel : nat) :
  forall k,
    (k + fuel <= n)%nat ->
    get_offer_ids_loop get_product_list fuel k (cursor pages k)
                       (seen pages k)
    = None.
Proof.
  induction fuel as [|fuel IH]; intros k Hk; simpl; [reflexivity|].
  rewrite (Hanswered k) by lia. rewrite seen_S.
  destruct (Z.eqb_spec (total (pages k))
                       (Z.of_nat (List.length (fetched pages k))))
    as [E|_].
  - exfalso. apply (Hmore k); [lia | exact E].
  - apply (IH (S k)). lia.
Qed.

Lemma get_offer_ids_after (fuel : nat) :
  get_offer_ids get_product_list fuel =
  if (n <? fuel)%nat
  then Some (Ok (map product_offer_id (fetched pages n)))
  else None.
Proof.
  unfold get_offer_ids. destruct (Nat.ltb_spec n fuel).
  - pose proof (get_offer_ids_loop_stops n 0 fuel) as H0.
    unfold seen in H0. simpl in H0. now rewrite H0 by lia.
  - pose proof (get_offer_ids_loop_running fuel 0) as H0.
    unfold seen in H0. simpl in H0. now rewrite H0 by lia.
Qed.

End CatalogueFacts.

(** C10.  [get_offer_ids] accumulates the pages it is answered and leaves
    its loop at the first request after which the number of accumulated
    items equals the total reported by that page, not before and not later,
    returning the identifiers accumulated so far; when the first page is
    empty and reports the total [0], it returns the empty list after that
    one request. *)
Theorem get_offer_ids_stops_at_total
        (get_product_list : nat -> string -> result Page) :
  (forall (pages : nat -> Page) (n : nat),
      (forall k, (k <= n)%nat -> answered get_product_list pages k) ->
      (forall k, (k < n)%nat -> ~ complete pages k) ->
      complete pages n ->
      forall fuel,
        get_offer_ids get_product_list fuel =
        if (n <? fuel)%nat
        then Some (Ok (map product_offer_id (fetched pages n)))
        else None) /\
  (forall c : string,
      get_product_list O "" = Ok {| items := []; total := 0; last_id := c |} ->
      forall fuel, get_offer_ids get_product_list (S fuel) = Some (Ok [])).
Proof.
  split.
  - intros pages n. apply get_offer_ids_after.
  - intros c H fuel.
    rewrite (get_offer_ids_after
               get_product_list
               (fun _ => {| items := []; total := 0; last_id := c |}) O).
    + reflexivity.
    + intros k Hk. replace k with O by lia. exact H.
    + intros k Hk. lia.
    + reflexivity.
Qed.

Lemma get_offer_ids_stops_at_total_witness :
  get_offer_ids two_page_catalogue 1 = None /\
  get_offer_ids two_page_catalogue 2 = Some (Ok ["A"; "B"; "C"]).
Proof.
  assert (H : forall fuel,
             get_offer_ids two_page_catalogue fuel =
             if (1 <? fuel)%nat
             then Some (Ok (map product_offer_id (fetched two_pages 1)))
             else None).
  { apply (proj1 (get_offer_ids_stops_at_total two_page_catalogue)
                 two_pages 1%nat).
    - intros [|[|k]] Hk; [reflexivity | reflexivity | lia].
    - intros [|k] Hk; [discriminate | lia].
    - reflexivity. }
  split; [exact (H 1%nat) | exact (H 2%nat)].
Defined.


(** * Further properties of the code *)

(** ** [create_stocks] on any list of offers *)

Lemma remove_first_Permutation (x : string) (ks ks' : list string) :
  remove_first x ks = Some ks' -> Permutation ks (x :: ks').
Proof.
  revert ks'. induction ks as [|k ks IH]; simpl; intros ks'; [discriminate|].
  destruct (String.eqb_spec k x) as [->|_].
  - intros [= <-]. reflexivity.
  - destruct (remove_first x ks) as [r|]; simpl; [|discriminate].
    intros [= <-]. rewrite (IH r eq_refl). apply perm_swap.
Qed.

Lemma remove_first_incl (x : string) (ks ks' : list string) :
  remove_first x ks = Some ks' -> incl ks' ks.
Proof.
  intros H y Hy. apply remove_first_Permutation in H.
  apply (Permutation_in y (Permutation_sym H)). now right.
Qed.

(** The body of the first loop only ever takes elements away. *)
Lemma create_stocks_body_incl (w : Watch) (acc : list Stock.entry)
      (ks : list string) :
  incl (snd (create_stocks_body w acc ks)) ks.
Proof.
  destruct (py_in (py_str (code w)) ks) eqn:Hin.
  - rewrite create_stocks_body_match by assumption.
    destruct (stock_of_quantity (quantity w)); [|apply incl_refl].
    destruct (remove_first (py_str (code w)) ks) eqn:Hrm; [|apply incl_refl].
    simpl. now apply remove_first_incl in Hrm.
  - rewrite create_stocks_body_skip by assumption. apply incl_refl.
Qed.

Lemma create_stocks_loop_permutation (I : list Watch) :
  forall acc ks st ks',
    for_each I create_stocks_body acc ks = (Ok st, ks') ->
    exists matched,
      st = acc ++ matched /\
      Permutation (map Stock.offer_id matched ++ ks') ks.
Proof.
  induction I as [|w I IH]; intros acc ks st ks'; simpl.
  - intros [= <- <-]. exists []. now rewrite app_nil_r.
  - unfold bind at 1. destruct (py_in (py_str (code w)) ks) eqn:Hin.
    + rewrite create_stocks_body_match by assumption.
      destruct (stock_of_quantity (quantity w)) as [z|]; [|discriminate].
      destruct (remove_first (py_str (code w)) ks) as [ks1|] eqn:Hrm;
        [|discriminate].
      intros H. apply IH in H as (matched & -> & Hperm).
      eexists (_ :: matched). split; [now rewrite <- app_assoc|].
      simpl. rewrite Hperm. symmetry. now apply remove_first_Permutation.
    + rewrite create_stocks_body_skip by assumption.
      intros H. apply IH in H as (matched & -> & Hperm). now exists matched.
Qed.

(** X1.  Whatever the list of offers, repetitions included: when
    [create_stocks] returns, the identifiers of its entries are the offers
    of the list, each as many times as the list has it, and the entries are
    as many as the offers. *)
Theorem create_stocks_covers_offers (I : list Watch) (K K' : list string)
        (stocks : list Stock.entry) :
  create_stocks I K = (Ok stocks, K') ->
  Permutation (map Stock.offer_id stocks) K /\
  List.length stocks = List.length K.
Proof.
  rewrite create_stocks_eq.
  destruct (for_each I create_stocks_body [] K) as [[st|e] K1] eqn:Hloop;
    [|discriminate].
  intros [= <- <-].
  apply create_stocks_loop_permutation in Hloop as (matched & -> & Hperm).
  simpl in *.
  assert (H : Permutation (map Stock.offer_id (matched ++ map zero_stock K1)) K).
  { now rewrite map_app, map_offer_id_zero_stock. }
  split; [assumption|].
  rewrite <- (length_map Stock.offer_id). now apply Permutation_length.
Qed.

Lemma create_stocks_covers_offers_witness :
  Permutation
    (map Stock.offer_id
         [ {| Stock.offer_id := "A"; Stock.stock := 100 |};
           {| Stock.offer_id := "A"; Stock.stock := 0 |};
           {| Stock.offer_id := "C"; Stock.stock := 0 |} ])
    ["A"; "A"; "C"] /\
  List.length [ {| Stock.offer_id := "A"; Stock.stock := 100 |};
                {| Stock.offer_id := "A"; Stock.stock := 0 |};
                {| Stock.offer_id := "C"; Stock.stock := 0 |} ]
  = List.length ["A"; "A"; "C"].
Proof.
  exact (create_stocks_covers_offers
           scenario_inventory ["A"; "A"; "C"] ["A"; "C"] _ eq_refl).
Defined.

(** ** Rows that the loops pass over *)

Lemma create_stocks_loop_known (K : list string) (I : list Watch) :
  forall acc ks,
    incl ks K ->
    for_each I create_stocks_body acc ks =
    for_each (filter (known_row K) I) create_stocks_body acc ks.
Proof.
  induction I as [|w I IH]; intros acc ks Hks; simpl; [reflexivity|].
  unfold known_row at 1. destruct (py_in (py_str (code w)) K) eqn:HK; simpl.
  - unfold bind. pose proof (create_stocks_body_incl w acc ks) as Hb.
    destruct (create_stocks_body w acc ks) as [[acc'|e] ks1]; [|reflexivity].
    apply IH. intros y Hy. apply Hks, Hb, Hy.
  - unfold bind. rewrite create_stocks_body_skip.
    + now apply IH.
    + apply py_in_not_In. intros Hin. apply py_in_not_In in HK. auto.
Qed.

(** X2.  [create_stocks] passes over the rows whose identifier is not an
    offer of the list: it gives the same result, by return or by exception,
    and leaves the same list, as on the inventory without these rows;
    their quantities are never converted. *)
Theorem create_stocks_skips_unknown_rows (I : list Watch) (K : list string) :
  create_stocks I K = create_stocks (filter (known_row K) I) K.
Proof.
  rewrite !create_stocks_eq.
  now rewrite (create_stocks_loop_known K I [] K (incl_refl K)).
Qed.

Lemma create_prices_loop_known (K : list string) (I : list Watch) :
  forall acc,
    for_each I create_prices_body acc K =
    for_each (filter (known_row K) I) create_prices_body acc K.
Proof.
  induction I as [|w I IH]; intros acc; simpl; [reflexivity|].
  unfold known_row at 1. destruct (py_in (py_str (code w)) K) eqn:HK; simpl.
  - unfold bind. rewrite create_prices_body_eq, HK.
    destruct (price_conversion (price w)); [apply IH | reflexivity].
  - unfold bind. rewrite create_prices_body_eq, HK. apply IH.
Qed.

(** X3.  [create_prices] passes over the rows whose identifier is not an
    offer of the list, whatever their price is, a missing one included. *)
Theorem create_prices_skips_unknown_rows (I : list Watch) (K : list string) :
  create_prices I K = create_prices (filter (known_row K) I) K.
Proof.
  apply create_prices_loop_known.
Qed.

(** X4.  [create_prices] returns exactly when the price of every row that
    matches an offer is a string; when one is not (the key is missing, or
    the cell holds a number) it raises [AttributeError].  The list of offers
    is the same afterwards in both cases. *)
Theorem create_prices_raises_on_non_string_price (I : list Watch)
        (K : list string) :
  ((forall w, In w I -> known_row K w = true -> exists s, price w = PyStr s) ->
   exists prices, create_prices I K = (Ok prices, K)) /\
  ((exists w, In w I /\ known_row K w = true /\
              forall s, price w <> PyStr s) ->
   create_prices I K = (Raise AttributeError, K)).
Proof.
  unfold create_prices. generalize (@nil Price.entry).
  induction I as [|w I IH]; intros acc; simpl.
  - split; [now exists acc | intros (w & [] & _)].
  - unfold bind, known_row in *. rewrite create_prices_body_eq.
    destruct (py_in (py_str (code w)) K) eqn:HK.
    + destruct (price w) as [|z|s] eqn:Hp; simpl.
      * split; [|reflexivity].
        intros H. destruct (H w (or_introl eq_refl) HK) as (s & Hs).
        rewrite Hp in Hs. discriminate.
      * split; [|reflexivity].
        intros H. destruct (H w (or_introl eq_refl) HK) as (s & Hs).
        rewrite Hp in Hs. discriminate.
      * destruct (py_split_first "." s) as (pre & ps & -> & _). simpl.
        split.
        -- intros H. apply (proj1 (IH _)). intros w' Hw'. apply H. now right.
        -- intros (w' & [<-|Hw'] & Hk & Hs).
           ++ rewrite Hp in Hs. now destruct (Hs s).
           ++ apply (proj2 (IH _)). now exists w'.
    + split.
      * intros H. apply (proj1 (IH _)). intros w' Hw'. apply H. now right.
      * intros (w' & [<-|Hw'] & Hk & Hs); [congruence|].
        apply (proj2 (IH _)). now exists w'.
Qed.

Lemma create_prices_raises_on_non_string_price_witness :
  create_prices
    [ {| code := PyStr "A"; quantity := PyStr "7"; price := PyNone |} ]
    ["A"] = (Raise AttributeError, ["A"]).
Proof.
  apply (proj2 (create_prices_raises_on_non_string_price
                  [ {| code := PyStr "A"; quantity := PyStr "7";
                       price := PyNone |} ] ["A"])).
  eexists. split; [now left|]. split; [reflexivity | discriminate].
Defined.

(** X5.  When the list of offers has no repetitions, a row that repeats the
    code of an earlier row changes nothing: the result and the list
    afterwards are those of the inventory without it, and its quantity is
    not converted. *)
Theorem create_stocks_skips_repeated_row (pre post : list Watch) (w : Watch)
        (K : list string) :
  NoDup K ->
  In (py_str (code w)) (inventory_ids pre) ->
  create_stocks (pre ++ w :: post) K = create_stocks (pre ++ post) K.
Proof.
  intros Hnd Hrep. rewrite !create_stocks_eq, !for_each_app.
  destruct (for_each pre create_stocks_body [] K) as [[st|e] K1] eqn:Hpre;
    [|reflexivity].
  apply create_stocks_loop_ids in Hpre as (-> & _); [|assumption].
  simpl. unfold bind at 1. rewrite create_stocks_body_skip; [reflexivity|].
  rewrite py_in_filter. apply py_in_In in Hrep. rewrite Hrep.
  apply andb_false_r.
Qed.

Lemma create_stocks_skips_repeated_row_witness :
  create_stocks
    (scenario_inventory
       ++ {| code := PyStr "A"; quantity := PyStr "a dozen"; price := PyNone |}
       :: [])
    scenario_offers
  = create_stocks (scenario_inventory ++ []) scenario_offers.
Proof.
  apply create_stocks_skips_repeated_row.
  - repeat constructor; simpl; intuition discriminate.
  - simpl. now left.
Defined.

(** ** The chunks of [divide] *)

Lemma divide_chunks {A : Type} (lst : list A) (n : Z) :
  0 < n ->
  exists chunks,
    divide lst n = Ok chunks /\
    List.concat chunks = lst /\
    Z.of_nat (List.length chunks) = (Z.of_nat (List.length lst) + n - 1) / n /\
    (forall i, (i < List.length chunks)%nat ->
               nth_error chunks i =
               Some (firstn (Z.to_nat n) (skipn (i * Z.to_nat n) lst))) /\
    Forall (fun c => 1 <= Z.of_nat (List.length c) <= n) chunks.
Proof.
  intros Hn.
  destruct (py_range_chunks (Z.of_nat (List.length lst)) n Hn)
    as (k & Hr & Hcover & Hlast & Hnil); [lia|].
  unfold divide. rewrite Hr. eexists. split; [reflexivity|].
  rewrite !length_map, length_seq. repeat split.
  - rewrite concat_chunks by assumption. apply firstn_all2. lia.
  - apply Z.div_unique_pos
      with (r := Z.of_nat (List.length lst) + n - 1 - n * Z.of_nat k); [|lia].
    destruct (Z.eq_dec (Z.of_nat (List.length lst)) 0) as [E|E].
    + rewrite (Hnil E) in *. lia.
    + specialize (Hlast ltac:(lia)). nia.
  - intros i Hi. rewrite !nth_error_map, nth_error_seq.
    destruct (Nat.ltb_spec i k); [|lia]. simpl. f_equal.
    rewrite py_slice_width by lia. do 2 f_equal. lia.
  - apply Forall_forall. intros c Hc.
    apply in_map_iff in Hc as (z & <- & Hz).
    apply in_map_iff in Hz as (i & <- & Hi). apply in_seq in Hi.
    rewrite Z.add_0_l, chunk_length by assumption.
    destruct (Z.eq_dec (Z.of_nat (List.length lst)) 0) as [E|E].
    + rewrite (Hnil E) in *. lia.
    + specialize (Hlast ltac:(lia)). nia.
Qed.

(** X6.  For a positive [n], [divide(lst, n)] yields
    [(len(lst) + n - 1) // n] chunks, none of them empty, and the [i]-th is
    the [n] elements of [lst] from position [i * n] on (fewer at the
    end). *)
Theorem divide_chunk_count (A : Type) (lst : list A) (n : Z) :
  0 < n ->
  exists chunks,
    divide lst n = Ok chunks /\
    Z.of_nat (List.length chunks) = (Z.of_nat (List.length lst) + n - 1) / n /\
    (forall i, (i < List.length chunks)%nat ->
               nth_error chunks i =
               Some (firstn (Z.to_nat n) (skipn (i * Z.to_nat n) lst))) /\
    (forall c, In c chunks -> c <> []).
Proof.
  intros Hn. destruct (divide_chunks lst n Hn) as (chunks & Hd & _ & Hc & Hi & Hf).
  exists chunks. repeat split; try assumption.
  intros c Hin ->. rewrite Forall_forall in Hf. specialize (Hf [] Hin).
  simpl in Hf. lia.
Qed.

Lemma divide_chunk_count_witness :
  exists chunks,
    divide [1; 2; 3; 4; 5; 6; 7] 3 = Ok chunks /\
    Z.of_nat (List.length chunks) =
    (Z.of_nat (List.length [1; 2; 3; 4; 5; 6; 7]) + 3 - 1) / 3 /\
    (forall i, (i < List.length chunks)%nat ->
               nth_error chunks i =
               Some (firstn (Z.to_nat 3)
                            (skipn (i * Z.to_nat 3) [1; 2; 3; 4; 5; 6; 7]))) /\
    (forall c, In c chunks -> c <> []).
Proof.
  exact (divide_chunk_count Z [1; 2; 3; 4; 5; 6; 7] 3 ltac:(lia)).
Defined.

(** ** The write calls of [main], [upload_stocks] and [upload_prices] *)

Lemma stock_batches_app (c1 c2 : list Call) :
  stock_batches (c1 ++ c2) = stock_batches c1 ++ stock_batches c2.
Proof. apply flat_map_app. Qed.

Lemma stock_batches_stocks (bs : list (list Stock.entry)) :
  stock_batches (map UpdateStocks bs) = bs.
Proof.
  induction bs as [|b bs IH]; simpl; [reflexivity | now rewrite IH].
Qed.

Lemma price_batches_prices (bs : list (list Price.entry)) :
  price_batches (map UpdatePrice bs) = bs.
Proof.
  induction bs as [|b bs IH]; simpl; [reflexivity | now rewrite IH].
Qed.

Lemma create_stocks_length (I : list Watch) (K K' : list string)
      (stocks : list Stock.entry) :
  create_stocks I K = (Ok stocks, K') ->
  List.length stocks = List.length K.
Proof.
  rewrite create_stocks_eq.
  destruct (for_each I create_stocks_body [] K) as [[st|e] K1] eqn:Hloop;
    [|discriminate].
  intros [= <- <-].
  apply create_stocks_loop_permutation in Hloop as (matched & -> & Hperm).
  simpl. apply Permutation_length in Hperm.
  rewrite length_app, length_map in Hperm.
  rewrite length_app, length_map. exact Hperm.
Qed.

Lemma send_stocks_done (returns : list Stock.entry -> bool)
      (chunks : list (list Stock.entry)) (calls : list Call) :
  send_stocks returns chunks = (calls, true) ->
  calls = map UpdateStocks chunks /\
  Forall (fun b => returns b = true) chunks.
Proof.
  revert calls. induction chunks as [|b chunks IH]; intros calls; simpl.
  - intros [= <-]. split; constructor.
  - destruct (returns b) eqn:Hb; [|discriminate].
    destruct (send_stocks returns chunks) as [calls' done].
    intros [= <- ->]. destruct (IH calls' eq_refl) as [-> Hall].
    split; [reflexivity | now constructor].
Qed.

Lemma send_stocks_failed (returns : list Stock.entry -> bool)
      (chunks : list (list Stock.entry)) (calls : list Call) :
  send_stocks returns chunks = (calls, false) ->
  exists sent b unsent,
    chunks = sent ++ b :: unsent /\
    Forall (fun b => returns b = true) sent /\
    returns b = false /\
    calls = map UpdateStocks (sent ++ [b]).
Proof.
  revert calls. induction chunks as [|b chunks IH]; intros calls; simpl.
  - discriminate.
  - destruct (returns b) eqn:Hb.
    + destruct (send_stocks returns chunks) as [calls' done].
      intros [= <- ->].
      destruct (IH calls' eq_refl) as (sent & b' & unsent & -> & Hs & Hb' & ->).
      exists (b :: sent), b', unsent. repeat split; try assumption.
      now constructor.
    + intros [= <-]. exists [], b, chunks. repeat split; [constructor | assumption].
Qed.

Lemma stock_batches_send_prices (returns : list Price.entry -> bool)
      (chunks : list (list Price.entry)) :
  stock_batches (fst (send_prices returns chunks)) = [].
Proof.
  induction chunks as [|b chunks IH]; simpl; [reflexivity|].
  destruct (returns b); [|reflexivity].
  destruct (send_prices returns chunks) as [calls done]. exact IH.
Qed.

(** X7.  When [create_stocks] returns in [main], its result is cut into
    [(|K| + 99) // 100] batches of 1 to 100 entries, which together are the
    result, once and in order.  If every call of [update_stocks] returns,
    the stock calls of [main] are exactly these batches.  If one raises,
    [main] has sent the batches before it and this one, and makes no call
    after it: the later batches are not sent and no price is. *)
Theorem main_sends_every_stock_entry
        (update_stocks_returns : list Stock.entry -> bool)
        (update_price_returns : list Price.entry -> bool)
        (I : list Watch) (K K' : list string) (stocks : list Stock.entry) :
  create_stocks I K = (Ok stocks, K') ->
  exists chunks,
    divide stocks 100 = Ok chunks /\
    List.concat chunks = stocks /\
    Z.of_nat (List.length chunks) = (Z.of_nat (List.length K) + 99) / 100 /\
    Forall (fun b => 1 <= Z.of_nat (List.length b) <= 100) chunks /\
    (Forall (fun b => update_stocks_returns b = true) chunks /\
     stock_batches (main_run update_stocks_returns update_price_returns K I)
     = chunks
     \/
     exists sent b unsent,
       chunks = sent ++ b :: unsent /\
       Forall (fun b => update_stocks_returns b = true) sent /\
       update_stocks_returns b = false /\
       main_run update_stocks_returns update_price_returns K I
       = map UpdateStocks (sent ++ [b])).
Proof.
  intros Hcs. pose proof (create_stocks_length _ _ _ _ Hcs) as Hlen.
  destruct (divide_chunks stocks 100 ltac:(lia))
    as (chunks & Hd & Hcat & Hcount & _ & Hsize).
  exists chunks. split; [assumption|]. split; [assumption|].
  split; [rewrite Hcount, Hlen; f_equal; lia|]. split; [assumption|].
  unfold main_run. rewrite Hcs, Hd.
  destruct (send_stocks update_stocks_returns chunks) as [calls [|]] eqn:Hsend.
  - left. apply send_stocks_done in Hsend as [-> Hall]. split; [assumption|].
    rewrite stock_batches_app, stock_batches_stocks.
    destruct (create_prices I K') as [[prices|e] K2];
      [|now rewrite app_nil_r].
    destruct (divide prices 900); [|now rewrite app_nil_r].
    now rewrite stock_batches_send_prices, app_nil_r.
  - right. apply send_stocks_failed in Hsend
      as (sent & b & unsent & -> & Hs & Hb & ->).
    now exists sent, b, unsent.
Qed.

Lemma main_sends_every_stock_entry_witness :
  exists chunks,
    divide [ {| Stock.offer_id := "A"; Stock.stock := 100 |};
             {| Stock.offer_id := "B"; Stock.stock := 0 |};
             {| Stock.offer_id := "C"; Stock.stock := 0 |} ] 100 = Ok chunks /\
    List.concat chunks
    = [ {| Stock.offer_id := "A"; Stock.stock := 100 |};
        {| Stock.offer_id := "B"; Stock.stock := 0 |};
        {| Stock.offer_id := "C"; Stock.stock := 0 |} ] /\
    Z.of_nat (List.length chunks)
    = (Z.of_nat (List.length scenario_offers) + 99) / 100 /\
    Forall (fun b => 1 <= Z.of_nat (List.length b) <= 100) chunks /\
    (Forall (fun b => (fun _ => false) b = true) chunks /\
     stock_batches (main_run (fun _ => false) (fun _ => true)
                             scenario_offers scenario_inventory)
     = chunks
     \/
     exists sent b unsent,
       chunks = sent ++ b :: unsent /\
       Forall (fun b => (fun _ => false) b = true) sent /\
       (fun _ : list Stock.entry => false) b = false /\
       main_run (fun _ => false) (fun _ => true)
                scenario_offers scenario_inventory
       = map UpdateStocks (sent ++ [b])).
Proof.
  exact (main_sends_every_stock_entry
           (fun _ => false) (fun _ => true)
           scenario_inventory scenario_offers ["C"] _ eq_refl).
Defined.

Lemma send_stocks_prefix (returns : list Stock.entry -> bool)
      (chunks : list (list Stock.entry)) :
  exists more,
    map UpdateStocks chunks = fst (send_stocks returns chunks) ++ more.
Proof.
  destruct (send_stocks returns chunks) as [calls [|]] eqn:Hsend; simpl.
  - apply send_stocks_done in Hsend as [-> _]. exists []. now rewrite app_nil_r.
  - apply send_stocks_failed in Hsend as (sent & b & unsent & -> & _ & _ & ->).
    exists (map UpdateStocks unsent).
    now rewrite <- map_app, <- app_assoc.
Qed.

Lemma send_prices_prefix (returns : list Price.entry -> bool)
      (chunks : list (list Price.entry)) :
  exists more,
    map UpdatePrice chunks = fst (send_prices returns chunks) ++ more.
Proof.
  induction chunks as [|b chunks (more & IH)]; simpl.
  - now exists [].
  - destruct (returns b).
    + destruct (send_prices returns chunks) as [calls done]. simpl in *.
      exists more. now rewrite IH.
    + now exists (map UpdatePrice chunks).
Qed.

Lemma send_stocks_all_return (chunks : list (list Stock.entry)) :
  send_stocks (fun _ => true) chunks = (map UpdateStocks chunks, true).
Proof.
  induction chunks as [|b chunks IH]; simpl; [reflexivity | now rewrite IH].
Qed.

Lemma send_prices_all_return (chunks : list (list Price.entry)) :
  send_prices (fun _ => true) chunks = (map UpdatePrice chunks, true).
Proof.
  induction chunks as [|b chunks IH]; simpl; [reflexivity | now rewrite IH].
Qed.

Lemma create_prices_after_create_stocks (I : list Watch) (K K' : list string)
      (stocks : list Stock.entry) :
  NoDup K ->
  create_stocks I K = (Ok stocks, K') ->
  create_prices I K' = (Ok [], K').
Proof.
  intros Hnd. rewrite create_stocks_eq.
  destruct (for_each I create_stocks_body [] K) as [[st|e] K1] eqn:Hloop;
    [|discriminate].
  intros [= <- <-].
  apply create_stocks_loop_ids in Hloop as (-> & _); [|assumption].
  apply create_prices_loop_none. intros w Hw Hin.
  apply filter_In in Hin as [_ Hin].
  apply negb_true_iff, py_in_not_In in Hin. apply Hin.
  unfold inventory_ids. now apply (in_map (fun w => py_str (code w))).
Qed.

(** X16.  Whichever calls of [update_stocks] and [update_price] raise, the
    calls that [main] makes are the first calls of the run in which every
    write returns, in the same order, and they are all of them when no
    write raises; and when the list of offers has no repetitions, [main]
    makes no call of [update_price], whatever the writes do. *)
Theorem main_run_calls
        (update_stocks_returns : list Stock.entry -> bool)
        (update_price_returns : list Price.entry -> bool)
        (I : list Watch) (K : list string) :
  (exists more,
      main K I
      = main_run update_stocks_returns update_price_returns K I ++ more) /\
  main_run (fun _ => true) (fun _ => true) K I = main K I /\
  (NoDup K ->
   forall c,
     In c (main_run update_stocks_returns update_price_returns K I) ->
     is_update_price c = false).
Proof.
  split; [|split].
  - unfold main, main_run.
    destruct (create_stocks I K) as [[stocks|e] K']; [|now exists []].
    destruct (divide stocks 100) as [chunks|e]; [|now exists []].
    destruct (send_stocks_prefix update_stocks_returns chunks) as (more & Hm).
    destruct (send_stocks update_stocks_returns chunks) as [calls [|]] eqn:Hsend;
      simpl in Hm.
    + apply send_stocks_done in Hsend as [-> _].
      destruct (create_prices I K') as [[prices|e] K2];
        [|exists []; now rewrite !app_nil_r].
      destruct (divide prices 900) as [pchunks|e];
        [|exists []; now rewrite !app_nil_r].
      destruct (send_prices_prefix update_price_returns pchunks) as (pm & Hp).
      exists pm. now rewrite Hp, app_assoc.
    + rewrite Hm. eexists. now rewrite <- app_assoc.
  - unfold main, main_run.
    destruct (create_stocks I K) as [[stocks|e] K']; [|reflexivity].
    destruct (divide stocks 100) as [chunks|e]; [|reflexivity].
    rewrite send_stocks_all_return.
    destruct (create_prices I K') as [[prices|e] K2]; [|reflexivity].
    destruct (divide prices 900) as [pchunks|e]; [|reflexivity].
    now rewrite send_prices_all_return.
  - intros Hnd c. unfold main_run.
    destruct (create_stocks I K) as [[stocks|e] K'] eqn:Hcs; [|intros []].
    destruct (divide stocks 100) as [chunks|e]; [|intros []].
    rewrite (create_prices_after_create_stocks I K K' stocks Hnd Hcs).
    change (divide (@nil Price.entry) 900)
      with (@Ok (list (list Price.entry)) []).
    destruct (send_stocks update_stocks_returns chunks) as [calls [|]] eqn:Hsend.
    + apply send_stocks_done in Hsend as [-> _]. simpl. rewrite app_nil_r.
      intros Hc. apply in_map_iff in Hc as (b & <- & _). reflexivity.
    + apply send_stocks_failed in Hsend as (sent & b & unsent & _ & _ & _ & ->).
      intros Hc. apply in_map_iff in Hc as (b' & <- & _). reflexivity.
Qed.

Lemma main_run_calls_witness :
  forallb (fun c => negb (is_update_price c))
          (main_run (fun _ => true) (fun _ => false)
                    scenario_offers scenario_inventory) = true.
Proof.
  apply forallb_forall. intros c Hc. apply negb_true_iff.
  apply (proj2 (proj2 (main_run_calls (fun _ => true) (fun _ => false)
                                      scenario_inventory scenario_offers))).
  - repeat constructor; simpl; intuition discriminate.
  - exact Hc.
Defined.

(** X8.  When [upload_stocks] returns, its second result is the list of
    [create_stocks], sent in order by its calls; its first result keeps,
    in order, the entries whose stock is not 0, and each of them comes from
    a row of the inventory: it has the row's identifier, which is one of the
    offers, and the stock that the row's quantity gives.  No entry made up
    for an offer without a row is among them. *)
Theorem upload_stocks_not_empty_from_inventory (I : list Watch)
        (K : list string) (calls : list Call)
        (not_empty stocks : list Stock.entry) :
  upload_stocks K I = (calls, Ok (not_empty, stocks)) ->
  fst (create_stocks I K) = Ok stocks /\
  List.concat (stock_batches calls) = stocks /\
  not_empty = filter (fun e => negb (Stock.stock e =? 0)) stocks /\
  forall e, In e not_empty ->
    Stock.stock e <> 0 /\
    In (Stock.offer_id e) K /\
    exists w, In w I /\
              Stock.offer_id e = py_str (code w) /\
              stock_of_quantity (quantity w) = Ok (Stock.stock e).
Proof.
  unfold upload_stocks. rewrite create_stocks_eq.
  destruct (for_each I create_stocks_body [] K) as [[st|e] K1] eqn:Hloop;
    [|discriminate].
  destruct (divide_chunks (st ++ map zero_stock K1) 100 ltac:(lia))
    as (chunks & -> & Hcat & _).
  intros [= <- <- <-]. rewrite stock_batches_stocks.
  repeat split; try assumption.
  - apply filter_In in H as [_ H]. unfold stock_not_zero in H.
    apply negb_true_iff, Z.eqb_neq in H. exact H.
  - apply filter_In in H as [H _].
    pose proof (create_stocks_loop_permutation _ _ _ _ _ Hloop)
      as (matched & Hst & Hperm). simpl in Hst. subst st.
    apply (Permutation_in (Stock.offer_id e) Hperm).
    apply in_app_iff. apply in_app_iff in H as [H|H].
    + left. now apply in_map.
    + right. apply in_map_iff in H as (k & <- & Hk). exact Hk.
  - apply filter_In in H as [H Hnz].
    apply create_stocks_loop_entries in Hloop as (matched & -> & Hm).
    simpl in H. apply in_app_iff in H as [H|H]; [now apply Hm|].
    apply in_map_iff in H as (k & <- & _). discriminate Hnz.
Qed.

Lemma upload_stocks_not_empty_from_inventory_witness :
  fst (create_stocks scenario_inventory scenario_offers)
  = Ok [ {| Stock.offer_id := "A"; Stock.stock := 100 |};
         {| Stock.offer_id := "B"; Stock.stock := 0 |};
         {| Stock.offer_id := "C"; Stock.stock := 0 |} ] /\
  [ {| Stock.offer_id := "A"; Stock.stock := 100 |} ]
  = filter (fun e => negb (Stock.stock e =? 0))
           [ {| Stock.offer_id := "A"; Stock.stock := 100 |};
             {| Stock.offer_id := "B"; Stock.stock := 0 |};
             {| Stock.offer_id := "C"; Stock.stock := 0 |} ] /\
  forall e,
    In e [ {| Stock.offer_id := "A"; Stock.stock := 100 |} ] ->
    Stock.stock e <> 0 /\
    In (Stock.offer_id e) scenario_offers /\
    exists w, In w scenario_inventory /\
              Stock.offer_id e = py_str (code w) /\
              stock_of_quantity (quantity w) = Ok (Stock.stock e).
Proof.
  destruct (upload_stocks_not_empty_from_inventory
              scenario_inventory scenario_offers _ _ _ eq_refl)
    as (H1 & _ & H3 & H4).
  exact (conj H1 (conj H3 H4)).
Defined.

(** X9.  When [upload_prices] returns, what it returns is the list of
    [create_prices] for the offers it fetched, one entry per matching row,
    and its calls of [update_price] carry exactly these entries, once and
    in order, in batches of 1 to 1000; when [create_prices] raises, it makes
    no call and raises the same exception. *)
Theorem upload_prices_sends_what_it_returns (I : list Watch)
        (K : list string) :
  (forall calls prices,
      upload_prices K I = (calls, Ok prices) ->
      create_prices I K = (Ok prices, K) /\
      List.concat (price_batches calls) = prices /\
      Forall (fun b => 1 <= Z.of_nat (List.length b) <= 1000)
             (price_batches calls)) /\
  (forall e, fst (create_prices I K) = Raise e ->
             upload_prices K I = ([], Raise e)).
Proof.
  unfold upload_prices. pose proof (create_prices_loop_frame I [] K) as Hk.
  fold (create_prices I) in Hk.
  destruct (create_prices I K) as [[prices|e] K1]; simpl in Hk; subst K1.
  - split; [|discriminate].
    destruct (divide_chunks prices 1000 ltac:(lia))
      as (chunks & -> & Hcat & _ & _ & Hsize).
    intros calls prices' [= <- <-]. rewrite price_batches_prices. auto.
  - split; [discriminate|]. now intros e' [= ->].
Qed.

Lemma upload_prices_sends_what_it_returns_witness :
  upload_prices ["A"]
    [ {| code := PyStr "A"; quantity := PyStr "7"; price := PyNone |} ]
  = ([], Raise AttributeError).
Proof.
  exact (proj2 (upload_prices_sends_what_it_returns
                  [ {| code := PyStr "A"; quantity := PyStr "7";
                       price := PyNone |} ] ["A"])
               AttributeError eq_refl).
Defined.

(** ** Failing and misreporting catalogues *)

(** Requests that are answered without reaching the total only move the
    loop on. *)
Lemma get_offer_ids_loop_skip
      (get_product_list : nat -> string -> result Page) (pages : nat -> Page)
      (m : nat) :
  forall k fuel,
    (forall j, (k <= j < k + m)%nat ->
               answered get_product_list pages j /\ ~ complete pages j) ->
    get_offer_ids_loop get_product_list (m + fuel) k (cursor pages k)
                       (seen pages k)
    = get_offer_ids_loop get_product_list fuel (k + m) (cursor pages (k + m))
                         (seen pages (k + m)).
Proof.
  induction m as [|m IH]; intros k fuel H.
  - now rewrite Nat.add_0_r.
  - destruct (H k ltac:(lia)) as [Ha Hc]. simpl.
    rewrite Ha, seen_S.
    destruct (Z.eqb_spec (total (pages k))
                         (Z.of_nat (List.length (fetched pages k))))
      as [E|_]; [contradiction|].
    change (fetched pages k) with (seen pages (S k)).
    change (last_id (pages k)) with (cursor pages (S k)).
    rewrite IH by (intros j Hj; apply H; lia).
    now replace (k + S m)%nat with (S k + m)%nat by lia.
Qed.

(** X10.  A request that fails ends [get_offer_ids] with the exception of
    the request: when the pages before request [n] are answered without
    reaching their total and request [n] raises [e], the loop raises [e] at
    that request, and the items fetched so far are not returned. *)
Theorem get_offer_ids_request_failure
        (get_product_list : nat -> string -> result Page)
        (pages : nat -> Page) (n : nat) (e : PyExc) :
  (forall k, (k < n)%nat ->
             answered get_product_list pages k /\ ~ complete pages k) ->
  get_product_list n (cursor pages n) = Raise e ->
  forall fuel,
    get_offer_ids get_product_list fuel =
    if (n <? fuel)%nat then Some (Raise e) else None.
Proof.
  intros H He fuel. unfold get_offer_ids.
  change "" with (cursor pages 0). change (@nil Product) with (seen pages 0).
  destruct (Nat.ltb_spec n fuel) as [Hlt|Hge].
  - replace fuel with (n + S (fuel - S n))%nat by lia.
    rewrite get_offer_ids_loop_skip by (intros j Hj; apply H; lia).
    simpl. now rewrite He.
  - replace fuel with (fuel + 0)%nat by lia.
    rewrite get_offer_ids_loop_skip by (intros j Hj; apply H; lia).
    reflexivity.
Qed.

Lemma get_offer_ids_request_failure_witness :
  get_offer_ids
    (fun k cur => if String.eqb cur "" then Ok first_page else Raise ValueError)
    2 = Some (Raise ValueError).
Proof.
  apply (get_offer_ids_request_failure
           (fun k cur => if String.eqb cur "" then Ok first_page
                         else Raise ValueError)
           two_pages 1 ValueError).
  - intros [|k] Hk; [|lia]. split; [reflexivity | discriminate].
  - reflexivity.
Defined.

Lemma fetched_length_le (pages : nat -> Page) (m k : nat) :
  (m <= k)%nat ->
  (List.length (fetched pages m) <= List.length (fetched pages k))%nat.
Proof.
  induction 1 as [|k Hle IH]; [lia|].
  rewrite <- (seen_S pages (S k)). change (seen pages (S k)) with (fetched pages k).
  rewrite length_app. lia.
Qed.

(** X11.  [get_offer_ids] has no other way out of its loop than the
    equality: against a catalogue that always answers and reports the same
    total, once the items fetched are more than this total without having
    been equal to it, the loop never ends, whatever the number of
    requests. *)
Theorem get_offer_ids_overshoot_never_returns
        (get_product_list : nat -> string -> result Page)
        (pages : nat -> Page) (T : Z) (m : nat) :
  (forall k, answered get_product_list pages k) ->
  (forall k, total (pages k) = T) ->
  (forall k, (k < m)%nat -> ~ complete pages k) ->
  T < Z.of_nat (List.length (fetched pages m)) ->
  forall fuel, get_offer_ids get_product_list fuel = None.
Proof.
  intros Ha HT Hbefore Hover fuel. unfold get_offer_ids.
  change "" with (cursor pages 0). change (@nil Product) with (seen pages 0).
  replace fuel with (fuel + 0)%nat by lia.
  rewrite get_offer_ids_loop_skip; [reflexivity|].
  intros j _. split; [apply Ha|].
  destruct (Nat.lt_ge_cases j m) as [Hj|Hj]; [now apply Hbefore|].
  unfold complete. rewrite HT.
  pose proof (fetched_length_le pages m j Hj). lia.
Qed.

Lemma get_offer_ids_overshoot_never_returns_witness :
  get_offer_ids
    (fun k cur => Ok {| items := items first_page; total := 1;
                        last_id := "B" |})
    1000 = None.
Proof.
  apply (get_offer_ids_overshoot_never_returns
           (fun k cur => Ok {| items := items first_page; total := 1;
                               last_id := "B" |})
           (fun k => {| items := items first_page; total := 1;
                        last_id := "B" |})
           1 0).
  - intros k. reflexivity.
  - intros k. reflexivity.
  - intros k Hk. lia.
  - simpl. lia.
Defined.

Lemma page_at_answered (get_product_list : nat -> string -> result Page)
      (k : nat) (p : Page) :
  get_product_list k (cursor (page_at get_product_list) k) = Ok p ->
  page_at get_product_list k = p.
Proof.
  destruct k as [|j]; cbn [page_at cursor]; intros H; now rewrite H.
Qed.

Lemma get_offer_ids_loop_returns
      (get_product_list : nat -> string -> result Page) (fuel : nat) :
  forall k l,
    get_offer_ids_loop get_product_list fuel k
                       (cursor (page_at get_product_list) k)
                       (seen (page_at get_product_list) k)
    = Some (Ok l) ->
    exists n,
      (k <= n < k + fuel)%nat /\
      (forall j, (k <= j <= n)%nat ->
                 answered get_product_list (page_at get_product_list) j) /\
      (forall j, (k <= j < n)%nat ->
                 ~ complete (page_at get_product_list) j) /\
      complete (page_at get_product_list) n /\
      l = fetched (page_at get_product_list) n.
Proof.
  set (pages := page_at get_product_list).
  induction fuel as [|fuel IH]; intros k l; cbn [get_offer_ids_loop];
    [discriminate|].
  destruct (get_product_list k (cursor pages k)) as [p|e] eqn:Hp;
    [|discriminate].
  pose proof (page_at_answered get_product_list k p Hp) as E.
  fold pages in E. subst p. rewrite seen_S.
  destruct (Z.eqb_spec (total (pages k))
                       (Z.of_nat (List.length (fetched pages k))))
    as [Heq|Hne].
  - intros [= <-]. exists k. split; [lia|]. split; [|split; [|split]].
    + intros j Hj. replace j with k by lia. exact Hp.
    + intros j Hj. lia.
    + exact Heq.
    + reflexivity.
  - change (fetched pages k) with (seen pages (S k)).
    change (last_id (pages k)) with (cursor pages (S k)).
    intros H. apply IH in H as (n & Hn & Hans & Hmore & Hdone & ->).
    exists n. split; [lia|]. split; [|split; [|split]].
    + intros j Hj. destruct (Nat.eq_dec j k) as [->|]; [exact Hp|].
      apply Hans. lia.
    + intros j Hj. destruct (Nat.eq_dec j k) as [->|]; [exact Hne|].
      apply Hmore. lia.
    + exact Hdone.
    + reflexivity.
Qed.

(** X12.  When [get_offer_ids] returns, the loop has been answered a
    sequence of pages, each requested with the cursor of the page before
    it; the last of them is the first whose total equals the number of
    items fetched up to it, the identifiers returned are those of the items
    of all these pages in order, and they are as many as the total reported
    by the last page. *)
Theorem get_offer_ids_returns_total
        (get_product_list : nat -> string -> result Page) (fuel : nat)
        (offer_ids : list string) :
  get_offer_ids get_product_list fuel = Some (Ok offer_ids) ->
  exists (pages : nat -> Page) (n : nat),
    (n < fuel)%nat /\
    (forall k, (k <= n)%nat -> answered get_product_list pages k) /\
    (forall k, (k < n)%nat -> ~ complete pages k) /\
    complete pages n /\
    offer_ids = map product_offer_id (fetched pages n) /\
    Z.of_nat (List.length offer_ids) = total (pages n).
Proof.
  unfold get_offer_ids.
  destruct (get_offer_ids_loop get_product_list fuel 0 "" [])
    as [[l|e]|] eqn:Hl; try discriminate.
  intros [= <-].
  apply (get_offer_ids_loop_returns get_product_list fuel 0 l) in Hl
    as (n & Hn & Hans & Hmore & Hdone & ->).
  exists (page_at get_product_list), n.
  split; [lia|]. split; [intros k Hk; apply Hans; lia|].
  split; [intros k Hk; apply Hmore; lia|]. split; [assumption|].
  split; [reflexivity|]. rewrite length_map. symmetry. exact Hdone.
Qed.

Lemma get_offer_ids_returns_total_witness :
  exists (pages : nat -> Page) (n : nat),
    (n < 2)%nat /\
    (forall k, (k <= n)%nat -> answered two_page_catalogue pages k) /\
    (forall k, (k < n)%nat -> ~ complete pages k) /\
    complete pages n /\
    ["A"; "B"; "C"] = map product_offer_id (fetched pages n) /\
    Z.of_nat (List.length ["A"; "B"; "C"]) = total (pages n).
Proof.
  exact (get_offer_ids_returns_total two_page_catalogue 2 ["A"; "B"; "C"]
                                     eq_refl).
Defined.

(** ** [str] and [int] on integers *)

Lemma parse_digits_string_of_uint (d : Decimal.uint) :
  forall acc,
    parse_digits acc false (NilEmpty.string_of_uint d)
    = Some (uint_value acc d).
Proof.
  induction d; intros acc;
    cbn [NilEmpty.string_of_uint parse_digits uint_value];
    [reflexivity | ..]; eval_digit; cbv iota; apply IHd.
Qed.

Lemma string_of_uint_digits (d : Decimal.uint) :
  string_forallb is_digit (NilEmpty.string_of_uint d) = true.
Proof.
  induction d; cbn [NilEmpty.string_of_uint string_forallb];
    [reflexivity | ..]; eval_digit; exact IHd.
Qed.

Lemma uint_value_of_lu (d : Decimal.uint) :
  forall acc,
    uint_value acc d
    = acc * 10 ^ Z.of_N (DecimalPos.Unsigned.usize d)
      + Z.of_N (DecimalPos.Unsigned.of_lu (Decimal.rev d)).
Proof.
  induction d; intros acc;
    cbn [uint_value DecimalPos.Unsigned.usize];
    [simpl; lia | ..];
    rewrite IHd;
    match goal with
    | |- context [Decimal.rev (?c d)] =>
        change (Decimal.rev (c d)) with (Decimal.revapp d (c Decimal.Nil));
        rewrite (DecimalPos.Unsigned.of_lu_revapp d (c Decimal.Nil))
    end;
    cbn [DecimalPos.Unsigned.of_lu];
    rewrite N2Z.inj_succ, Z.pow_succ_r by lia;
    rewrite !N2Z.inj_add, !N2Z.inj_mul, N2Z.inj_pow; simpl Z.of_N; ring.
Qed.

Lemma uint_value_of_uint (d : Decimal.uint) : uint_value 0 d = Z.of_uint d.
Proof.
  rewrite uint_value_of_lu. unfold Z.of_uint.
  rewrite DecimalPos.Unsigned.of_uint_alt. lia.
Qed.

Lemma string_of_uint_parse (d : Decimal.uint) :
  exists c s',
    NilZero.string_of_uint d = String c s' /\
    is_digit c = true /\
    string_forallb is_digit s' = true /\
    parse_unsigned (String c s') = Some (Z.of_uint d).
Proof.
  assert (Hnz : NilZero.string_of_uint d = "0" /\ d = Decimal.Nil \/
                NilZero.string_of_uint d = NilEmpty.string_of_uint d /\
                d <> Decimal.Nil).
  { destruct d; [now left | right; split; [reflexivity | discriminate] ..]. }
  destruct Hnz as [[-> ->] | [-> Hd]].
  - exists "0"%char, "". repeat split.
  - pose proof (parse_digits_string_of_uint d 0) as Hp.
    pose proof (string_of_uint_digits d) as Hdig.
    rewrite uint_value_of_uint in Hp.
    destruct (NilEmpty.string_of_uint d) as [|c s'] eqn:Es.
    + destruct d; try discriminate Es. contradiction.
    + cbn [string_forallb] in Hdig. apply andb_true_iff in Hdig as [Hc Hs].
      exists c, s'. repeat split; try assumption.
      cbn [parse_digits] in Hp. rewrite Hc in Hp.
      unfold parse_unsigned. rewrite Hc.
      now replace (10 * 0 + digit_value c) with (digit_value c) in Hp by lia.
Qed.

Lemma parse_int_string_of_int (i : Decimal.int) :
  parse_int (NilZero.string_of_int i) = Some (Z.of_int i).
Proof.
  destruct i as [d|d]; cbn [NilZero.string_of_int Z.of_int];
    destruct (string_of_uint_parse d) as (c & s' & -> & Hc & Hs & Hp);
    assert (Hd : string_forallb is_digit (String c s') = true)
      by (cbn [string_forallb]; now rewrite Hc, Hs).
  - unfold parse_int, strip.
    rewrite (lstrip_digits _ Hd), (rstrip_digits _ Hd).
    now destruct (digit_not_sign c Hc) as [-> ->].
  - unfold parse_int, strip.
    change (lstrip (String "-" (String c s'))) with (String "-" (String c s')).
    change (rstrip (String "-" (String c s')))
      with (match rstrip (String c s') with
            | EmptyString => String "-" EmptyString
            | String a r => String "-" (String a r)
            end).
    rewrite (rstrip_digits _ Hd).
    change (Ascii.eqb "-" "-") with true. cbv iota.
    now rewrite Hp.
Qed.

Lemma parse_int_py_str (z : Z) : parse_int (py_str (PyInt z)) = Some z.
Proof.
  unfold py_str. now rewrite parse_int_string_of_int, DecimalZ.of_to.
Qed.

(** X13.  [int] reads back what [str] writes: [int(str(n))] is [n] for
    every integer [n], negative ones included. *)
Theorem int_of_str_of_int (z : Z) : py_int (PyStr (py_str (PyInt z))) = Ok z.
Proof.
  unfold py_int. now rewrite parse_int_py_str.
Qed.

(** X14.  A quantity cell that holds the number [n] instead of text gives
    the same stock as the text [str(n)]: [n] itself, except that the number
    [1] gives [0] like the string ["1"]; no number is taken for [">10"].
    A row without quantity makes the conversion raise [TypeError]. *)
Theorem stock_of_number_quantity :
  (forall z : Z,
      stock_of_quantity (PyInt z) = Ok (if z =? 1 then 0 else z) /\
      stock_of_quantity (PyStr (py_str (PyInt z))) = stock_of_quantity (PyInt z)) /\
  stock_of_quantity PyNone = Raise TypeError.
Proof.
  split; [|reflexivity].
  intros z. pose proof (parse_int_py_str z) as Hp.
  unfold stock_of_quantity. cbn [py_str] in *.
  set (s := NilZero.string_of_int (Z.to_int z)) in *.
  destruct (String.eqb_spec s ">10") as [E|_].
  { rewrite E in Hp. discriminate Hp. }
  destruct (String.eqb_spec s "1") as [E|Hne].
  { rewrite E in Hp. injection Hp as <-. now split. }
  destruct (Z.eqb_spec z 1) as [->|_]; [now destruct Hne|].
  unfold py_int. now rewrite Hp.
Qed.

(** ** [price_conversion] on its own results *)

Lemma string_filter_forall (p : ascii -> bool) (s : string) :
  string_forallb p (string_filter p s) = true.
Proof.
  induction s as [|c s IH]; simpl; [reflexivity|].
  destruct (p c) eqn:E; simpl; [now rewrite E|exact IH].
Qed.

Lemma string_filter_id (p : ascii -> bool) (s : string) :
  string_forallb p s = true -> string_filter p s = s.
Proof.
  induction s as [|c s IH]; simpl; [reflexivity|].
  intros H. apply andb_true_iff in H as [-> Hs]. now rewrite IH.
Qed.

Lemma py_split_digits (s : string) :
  string_forallb is_digit s = true -> py_split "." s = [s].
Proof.
  induction s as [|c s IH]; simpl; [reflexivity|].
  intros H. apply andb_true_iff in H as [Hc Hs]. rewrite (IH Hs).
  destruct (Ascii.eqb_spec c "."%char) as [->|]; [discriminate Hc|reflexivity].
Qed.

(** X15.  The result of [price_conversion] consists of decimal digits only
    and is left as it is by a second conversion. *)
Theorem price_conversion_idempotent (s out : string) :
  price_conversion (PyStr s) = Ok out ->
  string_forallb is_digit out = true /\
  price_conversion (PyStr out) = Ok out.
Proof.
  unfold price_conversion.
  destruct (py_split_first "." s) as (pre & ps & -> & _). simpl.
  intros [= <-]. unfold re_sub_non_digits.
  pose proof (string_filter_forall is_digit pre) as Hd.
  split; [exact Hd|].
  rewrite (py_split_digits _ Hd). simpl. unfold re_sub_non_digits.
  now rewrite (string_filter_id _ _ Hd).
Qed.

Lemma price_conversion_idempotent_witness :
  string_forallb is_digit "5990" = true /\
  price_conversion (PyStr "5990") = Ok "5990".
Proof.
  exact (price_conversion_idempotent "5'990.00 руб." "5990" eq_refl).
Defined.
